(** * Body-Data: request normalisation, query parameters and body parsing

    A shallow embedding of [src/index.ts] (the functions [toWebRequest],
    [getParams], [getBody] and [bodyData]) together with a model of the
    Web-platform interfaces these functions call: [Request], [Headers],
    [URL], [URLSearchParams], [TextDecoder], [JSON.parse] and
    [Object.fromEntries].

    Conventions.
    - A JavaScript string is a Rocq [string] holding its UTF-8 bytes.  Every
      string operation of the source ([startsWith] with an ASCII constant,
      template concatenation, [===] against an ASCII constant, truthiness)
      commutes with that encoding.
    - A JavaScript object used as a dictionary is a [gmap] keyed by strings.
    - A computation that may throw (or a promise that may reject) is a
      [completion]: [Return v] for a normal result or a resolved promise,
      [Throw e] for an exception or a rejected promise.
    - The parts of the platform whose tables cannot reasonably be written
      down (IDNA host processing, path normalisation, the non-HTTP URL
      schemes, the legacy text encodings) are fields of the class
      [Platform], constrained by the few laws the URL Standard guarantees
      and that the proofs need. *)

From Stdlib Require Import ZArith NArith Strings.Ascii Strings.String Strings.Byte.
From Stdlib Require Import Numbers.DecimalString Numbers.DecimalN.
From stdpp Require Import base option strings gmap list.

Local Open Scope string_scope.

(** * Completions *)

Inductive Error :=
| TypeError
| RangeError
| SyntaxError
| UserError (tag : string).

Inductive completion (A : Type) :=
| Return (a : A)
| Throw (e : Error).
Arguments Return {A} a.
Arguments Throw {A} e.

#[global] Instance completion_ret : MRet completion := fun A a => Return a.
#[global] Instance completion_bind : MBind completion := fun A B f c =>
  match c with
  | Return a => f a
  | Throw e => Throw e
  end.

(** * Characters and strings *)

Module Text.

Definition code (c : ascii) : N := N_of_ascii c.

Definition in_range (lo hi : N) (c : ascii) : bool :=
  ((lo <=? code c) && (code c <=? hi))%N.

Definition is_digit (c : ascii) : bool := in_range 48 57 c.
Definition is_upper (c : ascii) : bool := in_range 65 90 c.
Definition is_lower (c : ascii) : bool := in_range 97 122 c.
Definition is_alpha (c : ascii) : bool := is_upper c || is_lower c.
Definition is_alnum (c : ascii) : bool := is_alpha c || is_digit c.
Definition is_hex (c : ascii) : bool :=
  is_digit c || in_range 65 70 c || in_range 97 102 c.

(** C0 control or space: what the URL parser trims from both ends. *)
Definition is_c0_or_space (c : ascii) : bool := (code c <=? 32)%N.
(** ASCII tab or newline: what the URL parser deletes everywhere. *)
Definition is_tab_or_newline (c : ascii) : bool :=
  (code c =? 9)%N || (code c =? 10)%N || (code c =? 13)%N.
(** HTTP whitespace, trimmed from header values. *)
Definition is_http_whitespace (c : ascii) : bool :=
  is_tab_or_newline c || (code c =? 32)%N.

Definition to_lower (c : ascii) : ascii :=
  if is_upper c then ascii_of_N (code c + 32) else c.
Definition to_upper (c : ascii) : ascii :=
  if is_lower c then ascii_of_N (code c - 32) else c.

Fixpoint map (f : ascii -> ascii) (s : string) : string :=
  match s with
  | EmptyString => EmptyString
  | String c s' => String (f c) (map f s')
  end.

Definition lowercase : string -> string := map to_lower.
Definition uppercase : string -> string := map to_upper.

Fixpoint all (p : ascii -> bool) (s : string) : bool :=
  match s with
  | EmptyString => true
  | String c s' => p c && all p s'
  end.

Fixpoint filter (p : ascii -> bool) (s : string) : string :=
  match s with
  | EmptyString => EmptyString
  | String c s' => if p c then String c (filter p s') else filter p s'
  end.

Fixpoint drop_while (p : ascii -> bool) (s : string) : string :=
  match s with
  | EmptyString => EmptyString
  | String c s' => if p c then drop_while p s' else s
  end.

(** [drop_while_end p s] removes the longest suffix of [s] made of
    characters satisfying [p]. *)
Fixpoint drop_while_end (p : ascii -> bool) (s : string) : string :=
  match s with
  | EmptyString => EmptyString
  | String c s' =>
      match drop_while_end p s' with
      | EmptyString => if p c then EmptyString else String c EmptyString
      | r => String c r
      end
  end.

Definition trim (p : ascii -> bool) (s : string) : string :=
  drop_while_end p (drop_while p s).

(** [break p s] splits [s] in front of its first character satisfying [p]. *)
Fixpoint break (p : ascii -> bool) (s : string) : string * string :=
  match s with
  | EmptyString => (EmptyString, EmptyString)
  | String c s' =>
      if p c then (EmptyString, s)
      else let '(a, b) := break p s' in (String c a, b)
  end.

(** [split_on p s] cuts [s] at every character satisfying [p]; the
    separators are dropped and empty pieces are kept. *)
Fixpoint split_on (p : ascii -> bool) (s : string) : list string :=
  match s with
  | EmptyString => [EmptyString]
  | String c s' =>
      match split_on p s' with
      | [] => [EmptyString]
      | piece :: rest =>
          if p c then EmptyString :: piece :: rest
          else String c piece :: rest
      end
  end.

Definition tail (s : string) : string :=
  match s with
  | EmptyString => EmptyString
  | String _ s' => s'
  end.

Definition is_empty (s : string) : bool :=
  match s with
  | EmptyString => true
  | String _ _ => false
  end.

(** [String.prototype.startsWith]. *)
Definition startsWith (s searchString : string) : bool :=
  String.prefix searchString s.

(** ** Hexadecimal digits and percent-encoding *)

Definition hex_char (n : N) : ascii :=
  if (n <? 10)%N then ascii_of_N (48 + n) else ascii_of_N (55 + n).

Definition hex_value (c : ascii) : option N :=
  if is_digit c then Some (code c - 48)%N
  else if in_range 65 70 c then Some (code c - 55)%N
  else if in_range 97 102 c then Some (code c - 87)%N
  else None.

Definition percent_encode_byte (c : ascii) : string :=
  String "%" (String (hex_char (code c / 16)) (String (hex_char (code c mod 16)) EmptyString)).

(** Percent-encode every byte of [s] that belongs to [set]. *)
Fixpoint percent_encode (set : ascii -> bool) (s : string) : string :=
  match s with
  | EmptyString => EmptyString
  | String c s' =>
      if set c then percent_encode_byte c +:+ percent_encode set s'
      else String c (percent_encode set s')
  end.

(** Percent-decode: a [%] followed by two hexadecimal digits becomes the
    byte they denote; any other [%] is kept as it is. *)
Fixpoint percent_decode (s : string) : string :=
  match s with
  | EmptyString => EmptyString
  | String c s' =>
      if Ascii.eqb c "%" then
        match s' with
        | String h (String l s'') =>
            match hex_value h, hex_value l with
            | Some a, Some b => String (ascii_of_N (16 * a + b)) (percent_decode s'')
            | _, _ => String c (percent_decode s')
            end
        | _ => String c (percent_decode s')
        end
      else String c (percent_decode s')
  end.

(** The percent-encode sets of the URL Standard that the model uses. *)
Definition c0_control_set (c : ascii) : bool :=
  (code c <=? 31)%N || (126 <? code c)%N.
Definition fragment_set (c : ascii) : bool :=
  c0_control_set c || (code c =? 32)%N || (code c =? 34)%N
  || (code c =? 60)%N || (code c =? 62)%N || (code c =? 96)%N.
Definition query_set (c : ascii) : bool :=
  c0_control_set c || (code c =? 32)%N || (code c =? 34)%N
  || (code c =? 35)%N || (code c =? 60)%N || (code c =? 62)%N.
Definition special_query_set (c : ascii) : bool :=
  query_set c || (code c =? 39)%N.
Definition path_set (c : ascii) : bool :=
  query_set c || (code c =? 63)%N || (code c =? 94)%N || (code c =? 96)%N
  || (code c =? 123)%N || (code c =? 125)%N.
Definition userinfo_set (c : ascii) : bool :=
  path_set c || (code c =? 47)%N || (code c =? 58)%N || (code c =? 59)%N
  || (code c =? 61)%N || (code c =? 64)%N || in_range 91 93 c || (code c =? 124)%N.

(** ** UTF-8 decoding with replacement

    The platform's "UTF-8 decode" turns bytes into a string and replaces
    every ill-formed sequence by U+FFFD.  With strings held as UTF-8 bytes
    this is a byte-to-byte function: well-formed sequences are copied and
    each maximal ill-formed part becomes the three bytes of U+FFFD. *)

Definition replacement : string :=
  String (ascii_of_N 239) (String (ascii_of_N 191) (String (ascii_of_N 189) EmptyString)).

Inductive lead_kind :=
| LeadAscii
| LeadMulti (needed : nat) (lower upper : N)
| LeadInvalid.

Definition lead (b : ascii) : lead_kind :=
  let n := code b in
  if (n <=? 127)%N then LeadAscii
  else if in_range 194 223 b then LeadMulti 1 128 191
  else if (n =? 224)%N then LeadMulti 2 160 191
  else if (n =? 237)%N then LeadMulti 2 128 159
  else if in_range 225 239 b then LeadMulti 2 128 191
  else if (n =? 240)%N then LeadMulti 3 144 191
  else if (n =? 244)%N then LeadMulti 3 128 143
  else if in_range 241 243 b then LeadMulti 3 128 191
  else LeadInvalid.

(** [utf8_from pending needed lower upper s]: [pending] holds the bytes of
    the sequence being read, [needed] the number of continuation bytes
    still expected, [lower..upper] the range allowed for the next one. *)
Fixpoint utf8_from (pending : string) (needed : nat) (lower upper : N) (s : string) : string :=
  match s with
  | EmptyString =>
      match needed with
      | O => EmptyString
      | S _ => replacement
      end
  | String b s' =>
      let start :=
        match lead b with
        | LeadAscii => String b (utf8_from EmptyString 0 128 191 s')
        | LeadMulti n lo hi => utf8_from (String b EmptyString) n lo hi s'
        | LeadInvalid => replacement +:+ utf8_from EmptyString 0 128 191 s'
        end in
      match needed with
      | O => start
      | S n =>
          if in_range lower upper b then
            match n with
            | O => pending +:+ String b (utf8_from EmptyString 0 128 191 s')
            | S _ => utf8_from (pending +:+ String b EmptyString) n 128 191 s'
            end
          else replacement +:+ start
      end
  end.

(** "UTF-8 decode without BOM". *)
Definition utf8_decode_without_BOM (s : string) : string :=
  utf8_from EmptyString 0 128 191 s.

Definition utf8_BOM : string :=
  String (ascii_of_N 239) (String (ascii_of_N 187) (String (ascii_of_N 191) EmptyString)).

(** "UTF-8 decode": a leading byte order mark is dropped first. *)
Definition utf8_decode (s : string) : string :=
  if startsWith s utf8_BOM
  then utf8_decode_without_BOM (tail (tail (tail s)))
  else utf8_decode_without_BOM s.

End Text.

(** * [URLSearchParams] and [Object.fromEntries] *)

Module URLSearchParams.
Import Text.

Definition plus_to_space (c : ascii) : ascii :=
  if Ascii.eqb c "+" then " "%char else c.

Definition decode_component (bytes : string) : string :=
  utf8_decode_without_BOM (percent_decode (map plus_to_space bytes)).

(** One [name=value] piece: the name runs to the first [=]. *)
Definition parse_pair (piece : string) : string * string :=
  let '(name, rest) := break (Ascii.eqb "=") piece in
  (decode_component name, decode_component (tail rest)).

(** The application/x-www-form-urlencoded parser: pieces are separated by
    [&], empty pieces are skipped. *)
Definition parse (input : string) : list (string * string) :=
  parse_pair <$> List.filter (fun piece => negb (is_empty piece)) (split_on (Ascii.eqb "&") input).

(** [new URLSearchParams(init)] for a string: one leading [?] is dropped. *)
Definition new (init : string) : list (string * string) :=
  parse (if startsWith init "?" then tail init else init).

End URLSearchParams.

Module Object.

(** [Object.fromEntries] on a list of string pairs: every entry defines
    the property, so a later entry with the same key replaces the value. *)
Definition fromEntries (entries : list (string * string)) : gmap string string :=
  foldl (fun o kv => <[kv.1 := kv.2]> o) ∅ entries.

(** The same on an object's own entries as a list: the copy keeps the
    position of the first occurrence of a key and its last value. *)
Fixpoint define {V : Type} (k : string) (v : V) (o : list (string * V)) : list (string * V) :=
  match o with
  | [] => [(k, v)]
  | (k', v') :: o' => if String.eqb k k' then (k', v) :: o' else (k', v') :: define k v o'
  end.

Definition copyEntries {V : Type} (entries : list (string * V)) : list (string * V) :=
  foldl (fun o kv => define kv.1 kv.2 o) [] entries.

End Object.

(** * The URL parser *)

Module URLSyntax.
Import Text.

Definition is_slash (c : ascii) : bool := Ascii.eqb c "/" || Ascii.eqb c "\".

(** The host state reads up to the first [:] that is not between square
    brackets; what follows that colon is the port. *)
Fixpoint split_port (inside : bool) (s : string) : string * option string :=
  match s with
  | EmptyString => (EmptyString, None)
  | String c s' =>
      if Ascii.eqb c ":" && negb inside then (EmptyString, Some s')
      else
        let inside' :=
          if Ascii.eqb c "[" then true
          else if Ascii.eqb c "]" then false
          else inside in
        let '(h, p) := split_port inside' s' in
        (String c h, p)
  end.

(** [balanced inside h]: [h] has no colon outside brackets and ends
    outside brackets. *)
Fixpoint balanced (inside : bool) (s : string) : bool :=
  match s with
  | EmptyString => negb inside
  | String c s' =>
      if Ascii.eqb c ":" && negb inside then false
      else balanced
             (if Ascii.eqb c "[" then true
              else if Ascii.eqb c "]" then false
              else inside) s'
  end.

Definition host_safe (c : ascii) : bool :=
  negb (is_c0_or_space c || Ascii.eqb c "#" || Ascii.eqb c "/" || Ascii.eqb c "?"
        || Ascii.eqb c "@" || Ascii.eqb c "\").

(** What a serialised host looks like from the outside: not empty, free
    of the delimiters of the other components, colons only in brackets. *)
Definition serialized_host (h : string) : bool :=
  negb (is_empty h) && all host_safe h && balanced false h.

Definition path_safe (c : ascii) : bool :=
  negb (is_c0_or_space c || Ascii.eqb c "#" || Ascii.eqb c "?").

(** A serialised path of a special URL starts with a slash and holds no
    query or fragment delimiter and no white space. *)
Definition serialized_path (p : string) : bool :=
  startsWith p "/" && all path_safe p.

(** Hosts made of ASCII letters only are domains that map to their
    lower-case form; they need none of the platform's tables. *)
Definition simple_host (s : string) : bool :=
  negb (is_empty s) && all is_alpha s.

Record Hierarchy := {
  h_username : string;
  h_password : string;
  h_host : option string;
  h_port : option N;
  h_path : string
}.

End URLSyntax.

(** The environment-provided parts of the platform.
    - [host_tables] is the host parser of the URL Standard (IDNA, IPv4 and
      IPv6 literals, percent-decoding) for hosts of special schemes that
      are not plain ASCII words.
    - [path_state] is the path state for special schemes: it receives the
      input from the first slash after the authority (or the empty string)
      and returns the serialised path.
    - [other_scheme] parses what follows the colon for [file:] and for the
      schemes that are not special.
    - [legacy_encoding] finds the decoder of a lower-cased, trimmed
      encoding label other than the UTF-8 ones.
    The laws are instances of the URL Standard's guarantee that parsing a
    serialised URL gives the same URL back. *)
Class Platform := {
  host_tables : string -> option string;
  path_state : string -> string;
  other_scheme : string -> string -> option URLSyntax.Hierarchy;
  legacy_encoding : string -> option (list byte -> string);
  host_tables_serialized : forall s h,
    host_tables s = Some h -> URLSyntax.serialized_host h = true;
  host_tables_stable : forall s h,
    host_tables s = Some h ->
    if URLSyntax.simple_host h then Text.lowercase h = h else host_tables h = Some h;
  path_state_serialized : forall p,
    URLSyntax.serialized_path (path_state p) = true;
  path_state_stable : forall p,
    path_state (path_state p) = path_state p
}.

Module URL.
Import Text URLSyntax.

Record t := {
  scheme : string;
  username : string;
  password : string;
  host : option string;
  port : option N;
  path : string;
  query : option string;
  fragment : option string
}.

Definition valid_scheme (s : string) : bool :=
  match s with
  | EmptyString => false
  | String c s' =>
      is_alpha c
      && all (fun d => is_alnum d || Ascii.eqb d "+" || Ascii.eqb d "-" || Ascii.eqb d ".") s'
  end.

(** The special schemes other than [file], with their default ports. *)
Definition default_port (scheme : string) : option N :=
  if String.eqb scheme "http" then Some 80%N
  else if String.eqb scheme "https" then Some 443%N
  else if String.eqb scheme "ws" then Some 80%N
  else if String.eqb scheme "wss" then Some 443%N
  else if String.eqb scheme "ftp" then Some 21%N
  else None.

Definition is_special (scheme : string) : bool :=
  String.eqb scheme "file" || bool_decide (is_Some (default_port scheme)).

(** The input of the parser: leading and trailing C0 controls and spaces
    are removed, then every tab and newline. *)
Definition preprocess (input : string) : string :=
  filter (fun c => negb (is_tab_or_newline c)) (trim is_c0_or_space input).

(** The host parser for special schemes. *)
Definition parse_host `{Platform} (s : string) : option string :=
  if simple_host s then Some (lowercase s) else host_tables s.

(** [split_last p s] cuts [s] at its last character satisfying [p]. *)
Fixpoint split_last (p : ascii -> bool) (s : string) : option (string * string) :=
  match s with
  | EmptyString => None
  | String c s' =>
      match split_last p s' with
      | Some (a, b) => Some (String c a, b)
      | None => if p c then Some (EmptyString, s') else None
      end
  end.

Definition decimal_value (digits : string) : option N :=
  N.of_uint <$> NilEmpty.uint_of_string digits.

Definition decimal (n : N) : string :=
  NilEmpty.string_of_uint (N.to_uint n).

(** The port state: digits only; an empty port and the scheme's default
    port both leave the port null. *)
Definition parse_port (scheme : string) (buffer : option string) : option (option N) :=
  match buffer with
  | None => Some None
  | Some EmptyString => Some None
  | Some digits =>
      n ← decimal_value digits;
      if (65535 <? n)%N then None
      else if bool_decide (default_port scheme = Some n) then Some None
      else Some (Some n)
  end.

(** Authority, host, port and path states for [http], [https], [ws],
    [wss] and [ftp], without a base URL: any run of slashes and
    backslashes is skipped, the authority runs to the next one. *)
Definition special_authority `{Platform} (scheme rest : string) : option Hierarchy :=
  let '(authority, path_input) := break is_slash (drop_while is_slash rest) in
  let '(credentials, host_port) :=
    match split_last (Ascii.eqb "@") authority with
    | Some (cred, hp) => (Some cred, hp)
    | None => (None, authority)
    end in
  let '(host_buffer, port_buffer) := split_port false host_port in
  if is_empty host_buffer then None
  else
    h ← parse_host host_buffer;
    p ← parse_port scheme port_buffer;
    let '(user, pass) :=
      match credentials with
      | Some cred => let '(u, pw) := break (Ascii.eqb ":") cred in (u, tail pw)
      | None => (EmptyString, EmptyString)
      end in
    Some {| h_username := percent_encode userinfo_set user;
            h_password := percent_encode userinfo_set pass;
            h_host := Some h;
            h_port := p;
            h_path := path_state path_input |}.

(** The basic URL parser without a base URL. *)
Definition parse `{Platform} (input : string) : option t :=
  let '(before_fragment, fragment_part) := break (Ascii.eqb "#") (preprocess input) in
  let '(before_query, query_part) := break (Ascii.eqb "?") before_fragment in
  let '(scheme_part, rest) := break (Ascii.eqb ":") before_query in
  if is_empty rest || negb (valid_scheme scheme_part) then None
  else
    let scheme := lowercase scheme_part in
    hier ← (if bool_decide (is_Some (default_port scheme))
            then special_authority scheme (tail rest)
            else other_scheme scheme (tail rest));
    Some {| scheme := scheme;
            username := h_username hier;
            password := h_password hier;
            host := h_host hier;
            port := h_port hier;
            path := h_path hier;
            query :=
              if is_empty query_part then None
              else Some (percent_encode
                           (if is_special scheme then special_query_set else query_set)
                           (tail query_part));
            fragment :=
              if is_empty fragment_part then None
              else Some (percent_encode fragment_set (tail fragment_part)) |}.

Definition includes_credentials (u : t) : bool :=
  negb (is_empty (username u)) || negb (is_empty (password u)).

(** The URL serialiser. *)
Definition serialize (u : t) : string :=
  scheme u +:+ ":"
  +:+ match host u with
      | Some h =>
          "//"
          +:+ (if includes_credentials u
               then username u
                    +:+ (if is_empty (password u) then EmptyString else ":" +:+ password u)
                    +:+ "@"
               else EmptyString)
          +:+ h
          +:+ match port u with
              | Some p => ":" +:+ decimal p
              | None => EmptyString
              end
      | None => EmptyString
      end
  +:+ path u
  +:+ match query u with
      | Some q => "?" +:+ q
      | None => EmptyString
      end
  +:+ match fragment u with
      | Some f => "#" +:+ f
      | None => EmptyString
      end.

(** [url.searchParams]: the query parsed as a form-urlencoded string;
    a null query gives no pair. *)
Definition searchParams (u : t) : list (string * string) :=
  URLSearchParams.parse (default EmptyString (query u)).

End URL.

(** * JavaScript values and [JSON.parse] *)

(** A number is kept as the decimal it was written as: [JNumber mantissa
    exponent] stands for the binary64 value nearest to [mantissa * 10 ^
    exponent].  That rounding is not computed, so two spellings of one
    number ([1.0] and [1e0]) are two terms here; the statements below
    involve no number but the numeral [1]. *)
#[warnings="-register-all"] Inductive JSValue :=
| JNull
| JBool (b : bool)
| JNumber (mantissa exponent : Z)
| JString (s : string)
| JArray (elements : list JSValue)
| JObject (properties : gmap string JSValue).

(** The object whose properties are the given strings. *)
Definition string_object (o : gmap string string) : JSValue :=
  JObject (JString <$> o).

Definition is_object (v : JSValue) : bool :=
  match v with
  | JObject _ => true
  | _ => false
  end.

Module JSON.
Import Text.

Inductive token :=
| TLBrace | TRBrace | TLBracket | TRBracket | TColon | TComma
| TString (s : string)
| TNumber (mantissa exponent : Z)
| TLiteral (v : JSValue).

(** ** Strings: raw bytes and [\uXXXX] code units *)

Inductive item :=
| Raw (c : ascii)
| Unit (u : N).

Definition utf8_encode (cp : N) : string :=
  let b (n : N) := ascii_of_N n in
  (if cp <? 128 then String (b cp) EmptyString
   else if cp <? 2048 then
     String (b (192 + cp / 64)) (String (b (128 + cp mod 64)) EmptyString)
   else if cp <? 65536 then
     String (b (224 + cp / 4096))
       (String (b (128 + (cp / 64) mod 64)) (String (b (128 + cp mod 64)) EmptyString))
   else
     String (b (240 + cp / 262144))
       (String (b (128 + (cp / 4096) mod 64))
          (String (b (128 + (cp / 64) mod 64)) (String (b (128 + cp mod 64)) EmptyString))))%N.

Definition is_high_surrogate (u : N) : bool := ((55296 <=? u) && (u <=? 56319))%N.
Definition is_low_surrogate (u : N) : bool := ((56320 <=? u) && (u <=? 57343))%N.

(** A high surrogate followed by a low one is one code point; a surrogate
    on its own is written out in the three-byte form of its code unit. *)
Fixpoint render (items : list item) : string :=
  match items with
  | [] => EmptyString
  | Raw c :: rest => String c (render rest)
  | Unit u :: rest =>
      match rest with
      | Unit l :: rest' =>
          if is_high_surrogate u && is_low_surrogate l
          then utf8_encode (65536 + (u - 55296) * 1024 + (l - 56320))%N +:+ render rest'
          else utf8_encode u +:+ render rest
      | _ => utf8_encode u +:+ render rest
      end
  end.

(** ** Numbers *)

Inductive phase :=
| NMinus | NZero | NInt | NDot | NFrac | NExp | NExpSign | NExpDigits.

Record number := {
  negative : bool;
  digits : Z;
  scale : Z;
  exp_negative : bool;
  exp_digits : Z;
  at_phase : phase
}.

Definition accepting (p : phase) : bool :=
  match p with
  | NZero | NInt | NFrac | NExpDigits => true
  | _ => false
  end.

Definition number_token (n : number) : token :=
  TNumber (if negative n then - digits n else digits n)%Z
          ((if exp_negative n then - exp_digits n else exp_digits n) - scale n)%Z.

Definition digit_value (c : ascii) : Z := Z.of_N (code c - 48).

Definition number_step (n : number) (c : ascii) : option number :=
  let set_phase p := {| negative := negative n; digits := digits n; scale := scale n;
                        exp_negative := exp_negative n; exp_digits := exp_digits n;
                        at_phase := p |} in
  let int_digit p := {| negative := negative n; digits := (10 * digits n + digit_value c)%Z;
                        scale := scale n; exp_negative := exp_negative n;
                        exp_digits := exp_digits n; at_phase := p |} in
  let frac_digit := {| negative := negative n; digits := (10 * digits n + digit_value c)%Z;
                       scale := (scale n + 1)%Z; exp_negative := exp_negative n;
                       exp_digits := exp_digits n; at_phase := NFrac |} in
  let exp_digit := {| negative := negative n; digits := digits n; scale := scale n;
                      exp_negative := exp_negative n;
                      exp_digits := (10 * exp_digits n + digit_value c)%Z;
                      at_phase := NExpDigits |} in
  let exp_sign := {| negative := negative n; digits := digits n; scale := scale n;
                     exp_negative := Ascii.eqb c "-"; exp_digits := exp_digits n;
                     at_phase := NExpSign |} in
  let is_e := Ascii.eqb c "e" || Ascii.eqb c "E" in
  match at_phase n with
  | NMinus =>
      if Ascii.eqb c "0" then Some (set_phase NZero)
      else if is_digit c then Some (int_digit NInt) else None
  | NZero =>
      if Ascii.eqb c "." then Some (set_phase NDot)
      else if is_e then Some (set_phase NExp) else None
  | NInt =>
      if is_digit c then Some (int_digit NInt)
      else if Ascii.eqb c "." then Some (set_phase NDot)
      else if is_e then Some (set_phase NExp) else None
  | NDot => if is_digit c then Some frac_digit else None
  | NFrac =>
      if is_digit c then Some frac_digit
      else if is_e then Some (set_phase NExp) else None
  | NExp =>
      if Ascii.eqb c "+" || Ascii.eqb c "-" then Some exp_sign
      else if is_digit c then Some exp_digit else None
  | NExpSign => if is_digit c then Some exp_digit else None
  | NExpDigits => if is_digit c then Some exp_digit else None
  end.

Definition number_start (neg : bool) (d : Z) (p : phase) : number :=
  {| negative := neg; digits := d; scale := 0; exp_negative := false;
     exp_digits := 0; at_phase := p |}.

(** ** The lexer: one step per character *)

Inductive mode :=
| Idle
| InString (acc : list item)
| InEscape (acc : list item)
| InUnicode (acc : list item) (count : nat) (value : N)
| InNumber (n : number)
| InWord (rest : string) (tok : token).

Definition is_whitespace (c : ascii) : bool :=
  (code c =? 32)%N || is_tab_or_newline c.

Definition idle_step (tokens : list token) (c : ascii) : option (mode * list token) :=
  if is_whitespace c then Some (Idle, tokens)
  else if Ascii.eqb c "{" then Some (Idle, TLBrace :: tokens)
  else if Ascii.eqb c "}" then Some (Idle, TRBrace :: tokens)
  else if Ascii.eqb c "[" then Some (Idle, TLBracket :: tokens)
  else if Ascii.eqb c "]" then Some (Idle, TRBracket :: tokens)
  else if Ascii.eqb c ":" then Some (Idle, TColon :: tokens)
  else if Ascii.eqb c "," then Some (Idle, TComma :: tokens)
  else if Ascii.eqb c "034" then Some (InString [], tokens)
  else if Ascii.eqb c "-" then Some (InNumber (number_start true 0 NMinus), tokens)
  else if Ascii.eqb c "0" then Some (InNumber (number_start false 0 NZero), tokens)
  else if is_digit c then Some (InNumber (number_start false (digit_value c) NInt), tokens)
  else if Ascii.eqb c "t" then Some (InWord "rue" (TLiteral (JBool true)), tokens)
  else if Ascii.eqb c "f" then Some (InWord "alse" (TLiteral (JBool false)), tokens)
  else if Ascii.eqb c "n" then Some (InWord "ull" (TLiteral JNull), tokens)
  else None.

Definition escape (c : ascii) : option ascii :=
  if Ascii.eqb c "034" || Ascii.eqb c "\" || Ascii.eqb c "/" then Some c
  else if Ascii.eqb c "b" then Some (ascii_of_N 8)
  else if Ascii.eqb c "f" then Some (ascii_of_N 12)
  else if Ascii.eqb c "n" then Some (ascii_of_N 10)
  else if Ascii.eqb c "r" then Some (ascii_of_N 13)
  else if Ascii.eqb c "t" then Some (ascii_of_N 9)
  else None.

Definition step (st : mode * list token) (c : ascii) : option (mode * list token) :=
  let '(m, tokens) := st in
  match m with
  | Idle => idle_step tokens c
  | InString acc =>
      if Ascii.eqb c "034" then Some (Idle, TString (render (rev acc)) :: tokens)
      else if Ascii.eqb c "\" then Some (InEscape acc, tokens)
      else if (code c <? 32)%N then None
      else Some (InString (Raw c :: acc), tokens)
  | InEscape acc =>
      if Ascii.eqb c "u" then Some (InUnicode acc 0 0%N, tokens)
      else e ← escape c; Some (InString (Raw e :: acc), tokens)
  | InUnicode acc count value =>
      d ← hex_value c;
      let value' := (16 * value + d)%N in
      if bool_decide (count = 3) then Some (InString (Unit value' :: acc), tokens)
      else Some (InUnicode acc (S count) value', tokens)
  | InNumber n =>
      match number_step n c with
      | Some n' => Some (InNumber n', tokens)
      | None =>
          if accepting (at_phase n) then idle_step (number_token n :: tokens) c
          else None
      end
  | InWord rest tok =>
      match rest with
      | String r rest' =>
          if Ascii.eqb c r
          then Some (if is_empty rest' then (Idle, tok :: tokens) else (InWord rest' tok, tokens))
          else None
      | EmptyString => None
      end
  end.

Fixpoint lex_from (st : mode * list token) (s : string) : option (mode * list token) :=
  match s with
  | EmptyString => Some st
  | String c s' => st' ← step st c; lex_from st' s'
  end.

Definition lex (s : string) : option (list token) :=
  st ← lex_from (Idle, []) s;
  match st with
  | (Idle, tokens) => Some (rev tokens)
  | (InNumber n, tokens) =>
      if accepting (at_phase n) then Some (rev (number_token n :: tokens)) else None
  | _ => None
  end.

(** ** The parser: a stack machine over the tokens *)

Inductive frame :=
| FArray (elements : list JSValue)
| FObject (properties : gmap string JSValue)
| FMember (properties : gmap string JSValue) (key : string).

Inductive state :=
| SValue (stack : list frame) (may_close : bool)
| SKey (stack : list frame) (may_close : bool)
| SColon (stack : list frame)
| SAfter (stack : list frame)
| SDone (v : JSValue).

(** A value is complete: it is the result, the next element of the
    enclosing array, or the value of the pending key. *)
Definition complete (v : JSValue) (stack : list frame) : option state :=
  match stack with
  | [] => Some (SDone v)
  | FArray els :: rest => Some (SAfter (FArray (v :: els) :: rest))
  | FMember o k :: rest => Some (SAfter (FObject (<[k := v]> o) :: rest))
  | FObject _ :: _ => None
  end.

Definition parse_step (st : state) (tok : token) : option state :=
  match st, tok with
  | SValue stack _, TString s => complete (JString s) stack
  | SValue stack _, TNumber m e => complete (JNumber m e) stack
  | SValue stack _, TLiteral v => complete v stack
  | SValue stack _, TLBracket => Some (SValue (FArray [] :: stack) true)
  | SValue stack _, TLBrace => Some (SKey (FObject ∅ :: stack) true)
  | SValue (FArray [] :: stack) true, TRBracket => complete (JArray []) stack
  | SKey (FObject o :: stack) _, TString k => Some (SColon (FMember o k :: stack))
  | SKey (FObject o :: stack) true, TRBrace => complete (JObject o) stack
  | SColon stack, TColon => Some (SValue stack false)
  | SAfter (FArray els :: stack), TComma => Some (SValue (FArray els :: stack) false)
  | SAfter (FArray els :: stack), TRBracket => complete (JArray (rev els)) stack
  | SAfter (FObject o :: stack), TComma => Some (SKey (FObject o :: stack) false)
  | SAfter (FObject o :: stack), TRBrace => complete (JObject o) stack
  | _, _ => None
  end.

Fixpoint run (st : state) (tokens : list token) : option JSValue :=
  match tokens with
  | [] => match st with
          | SDone v => Some v
          | _ => None
          end
  | tok :: rest => st' ← parse_step st tok; run st' rest
  end.

(** [JSON.parse(text)] without a reviver. *)
Definition parse (text : string) : completion JSValue :=
  match lex text ≫= run (SValue [] false) with
  | Some v => Return v
  | None => Throw SyntaxError
  end.

End JSON.

(** * [TextDecoder] *)

Module TextDecoder.
Import Text.

Inductive t :=
| UTF8
| Legacy (decoder : list byte -> string).

Definition utf8_labels : list string :=
  ["unicode-1-1-utf-8"; "unicode11utf8"; "unicode20utf8"; "utf-8"; "utf8"; "x-unicode20utf8"].

Definition is_ascii_whitespace (c : ascii) : bool :=
  is_http_whitespace c || (code c =? 12)%N.

(** [new TextDecoder(label)]: the label is trimmed and lower-cased; a
    label that names no encoding is a [RangeError]. *)
Definition new `{Platform} (label : string) : completion t :=
  let name := lowercase (trim is_ascii_whitespace label) in
  if bool_decide (name ∈ utf8_labels) then Return UTF8
  else match legacy_encoding name with
       | Some decoder => Return (Legacy decoder)
       | None => Throw RangeError
       end.

(** [decoder.decode(buffer)] in the default, non-fatal mode: it never
    throws. *)
Definition decode (d : t) (buffer : list byte) : string :=
  match d with
  | UTF8 => utf8_decode (string_of_list_byte buffer)
  | Legacy decoder => decoder buffer
  end.

End TextDecoder.

(** * [Headers] *)

Module Headers.
Import Text.

(** A header list, in the order the headers were appended. *)
Definition t := list (string * string).

Fixpoint join (sep : string) (l : list string) : string :=
  match l with
  | [] => EmptyString
  | [x] => x
  | x :: rest => x +:+ sep +:+ join sep rest
  end.

(** [headers.get(name)]: names are compared without regard to case; the
    values of all matching headers are joined by a comma and a space. *)
Definition get (h : t) (name : string) : option string :=
  match List.filter (fun kv => String.eqb (lowercase kv.1) (lowercase name)) h with
  | [] => None
  | matching => Some (join ", " (snd <$> matching))
  end.

Definition is_token_char (c : ascii) : bool :=
  is_alnum c
  || bool_decide (c ∈ ["!"; "#"; "$"; "%"; "&"; "'"; "*"; "+"; "-"; "."; "^"; "_"; "`"; "|"; "~"]%char).

Definition is_token (s : string) : bool :=
  negb (is_empty s) && all is_token_char s.

(** A byte string has no code point above U+00FF, that is, no UTF-8 lead
    byte from 0xC4 on. *)
Definition is_byte_string (s : string) : bool :=
  all (fun c => (code c <? 196)%N) s.

Definition valid_value (v : string) : bool :=
  all (fun c => negb ((code c =? 0)%N || (code c =? 10)%N || (code c =? 13)%N)) v.

(** Appending a header: the value is trimmed of HTTP white space; an
    invalid name or value is a [TypeError]. *)
Definition append (h : t) (name value : string) : completion t :=
  let v := trim is_http_whitespace value in
  if is_byte_string name && is_byte_string value && is_token name && valid_value v
  then Return (h ++ [(name, v)])%list
  else Throw TypeError.

Fixpoint fill (h : t) (init : list (string * string)) : completion t :=
  match init with
  | [] => Return h
  | (name, value) :: rest => h' ← append h name value; fill h' rest
  end.

End Headers.

(** * [Request] *)

Module Request.
Import Text.

(** A body is what reading it to the end gives: its bytes, or the error
    of the underlying stream; a stream that never ends is not modelled.
    [bodyUsed] tells that the body was read before. *)
Record t := {
  method : string;
  url : string;
  headers : Headers.t;
  body : option (completion (list byte));
  bodyUsed : bool
}.

Record Init := {
  init_method : option string;
  init_headers : list (string * string);
  init_body : option (completion (list byte));
  init_body_disturbed : bool;
  init_duplex_half : bool
}.

Definition forbidden_method (m : string) : bool :=
  bool_decide (uppercase m ∈ ["CONNECT"; "TRACE"; "TRACK"]).

(** Methods that differ from a standard one only in case are put in
    upper case. *)
Definition normalize_method (m : string) : string :=
  if bool_decide (uppercase m ∈ ["DELETE"; "GET"; "HEAD"; "OPTIONS"; "POST"; "PUT"])
  then uppercase m else m.

(** [new Request(input, init)] for a string [input].  [init_body] is what
    reading the stream given as body delivers, [init_body_disturbed]
    whether that stream was read from before or is locked.  Every failure
    is a [TypeError]: the URL does not parse or carries credentials, the
    method is not a token or is forbidden, a header is invalid, a body is
    given for [GET] or [HEAD], the stream given as body is disturbed or
    locked, or it comes without [duplex: 'half']. *)
Definition new `{Platform} (input : string) (init : Init) : completion t :=
  match URL.parse input with
  | None => Throw TypeError
  | Some parsedURL =>
      if URL.includes_credentials parsedURL then Throw TypeError
      else
        m ← match init_method init with
            | None => Return "GET"
            | Some m =>
                if Headers.is_token m && negb (forbidden_method m)
                then Return (normalize_method m)
                else Throw TypeError
            end;
        h ← Headers.fill [] (init_headers init);
        match init_body init with
        | Some stream =>
            if String.eqb m "GET" || String.eqb m "HEAD" then Throw TypeError
            else if init_body_disturbed init then Throw TypeError
            else if negb (init_duplex_half init) then Throw TypeError
            else Return {| method := m; url := URL.serialize parsedURL; headers := h;
                           body := Some stream; bodyUsed := false |}
        | None =>
            Return {| method := m; url := URL.serialize parsedURL; headers := h;
                      body := None; bodyUsed := false |}
        end
  end.

(** [request.arrayBuffer()]: rejects with a [TypeError] when the body was
    already read, with the stream's error when reading fails; a request
    without body gives no byte. *)
Definition arrayBuffer (r : t) : completion (list byte) :=
  if bodyUsed r then Throw TypeError
  else match body r with
       | None => Return []
       | Some stream => stream
       end.

End Request.

(** * Node's [IncomingMessage] *)

Module IncomingMessage.

(** A header value of [IncomingHttpHeaders]. *)
Inductive HeaderValue :=
| One (s : string)
| Many (l : list string)
| Undefined.

(** [String(value)], as the conversion to a header record applies it. *)
Definition to_string (v : HeaderValue) : string :=
  match v with
  | One s => s
  | Many l => Headers.join "," l
  | Undefined => "undefined"
  end.

(** [method] and [url] are [string | undefined]; [headers] are the
    entries of the headers object in enumeration order; [stream] is what
    reading the message to its end gives; [disturbed] tells that the
    message was read from before, or is being read (locked). *)
Record t := {
  method : option string;
  url : option string;
  headers : list (string * HeaderValue);
  stream : completion (list byte);
  disturbed : bool
}.

End IncomingMessage.

(** * The program: [src/index.ts] *)

(** [IncomingMessage | Request]: [Standard] is the case [req instanceof
    Request]. *)
Inductive RequestInput :=
| Legacy (nodeReq : IncomingMessage.t)
| Standard (req : Request.t).

(** Modelled from the spec: the type [IBodyOptions] of [src/type.ts],
    which is not among the sources; its fields are the ones [getBody]
    reads, all optional.  [onError] is a caller's function: it returns or
    throws. *)
Record IBodyOptions := {
  encoding : option string;
  raw : option bool;
  contentType : option string;
  backContentType : option string;
  onError : option (Error -> completion unit)
}.

(** [bodyData] hands its options to [getBody] as they are. *)
Definition IOptions := IBodyOptions.

(** The default parameter [options = {}]. *)
Definition no_options : IBodyOptions :=
  {| encoding := None; raw := None; contentType := None;
     backContentType := None; onError := None |}.

(** [value || fallback] on strings: [undefined], [null] and the empty
    string are falsy. *)
Definition or_else (value : option string) (fallback : string) : string :=
  match value with
  | Some (String c s) => String c s
  | _ => fallback
  end.

(** What an asynchronous call leaves behind: the promise's outcome and the
    errors [onError] was called with, in order. *)
Record Settled (A : Type) := {
  outcome : completion A;
  onError_calls : list Error
}.
Arguments outcome {A} _.
Arguments onError_calls {A} _.

Definition empty_object : JSValue := JObject ∅.
Definition raw_object (buffer : string) : JSValue := JObject {[ "raw" := JString buffer ]}.
Definition text_object (buffer : string) : JSValue := JObject {[ "text" := JString buffer ]}.

Section Program.
Context `{Platform}.

(** The URL handed to the [Request] constructor (line 19). *)
Definition fullUrl (url : option string) : string :=
  match url with
  | Some u => if Text.startsWith u "http" then u else "http://localhost" +:+ u
  | None => "http://localhost" +:+ "undefined"
  end.

(** The body handed to the [Request] constructor (line 20). *)
Definition requestBody (nodeReq : IncomingMessage.t) : option (completion (list byte)) :=
  if bool_decide (IncomingMessage.method nodeReq = Some "GET")
     || bool_decide (IncomingMessage.method nodeReq = Some "HEAD")
  then None
  else Some (IncomingMessage.stream nodeReq).

(** [requestInit] (lines 21-26). *)
Definition requestInit (nodeReq : IncomingMessage.t) : Request.Init :=
  {| Request.init_method := IncomingMessage.method nodeReq;
     Request.init_headers :=
       prod_map id IncomingMessage.to_string
         <$> Object.copyEntries (IncomingMessage.headers nodeReq);
     Request.init_body := requestBody nodeReq;
     Request.init_body_disturbed := IncomingMessage.disturbed nodeReq;
     Request.init_duplex_half := true |}.

Definition toWebRequest (req : RequestInput) : completion Request.t :=
  match req with
  | Standard r => Return r
  | Legacy nodeReq =>
      Request.new (fullUrl (IncomingMessage.url nodeReq)) (requestInit nodeReq)
  end.

Definition getParams (req : RequestInput) : completion (gmap string string) :=
  webReq ← toWebRequest req;
  let urlStr := Request.url webReq in
  match URL.parse urlStr with
  | None => Throw TypeError
  | Some u => Return (Object.fromEntries (URL.searchParams u))
  end.

(** The content type used for the dispatch (line 95). *)
Definition effectiveContentType (webReq : Request.t) (options : IBodyOptions) : string :=
  or_else (contentType options)
    (or_else (Headers.get (Request.headers webReq) "content-type")
       (or_else (backContentType options) EmptyString)).

(** The dispatch on the content type (lines 96-108). *)
Definition dispatch (contentType buffer : string) : completion JSValue :=
  if Text.startsWith contentType "application/json" then JSON.parse buffer
  else if Text.startsWith contentType "application/x-www-form-urlencoded"
  then Return (string_object (Object.fromEntries (URLSearchParams.new buffer)))
  else if Text.startsWith contentType "text/plain" then Return (text_object buffer)
  else if Text.startsWith contentType "multipart/form-data" then Return (raw_object buffer)
  else Return (raw_object buffer).

(** The [try] block of [getBody] (lines 85-108). *)
Definition getBody_try (webReq : Request.t) (options : IBodyOptions) : completion JSValue :=
  ab ← Request.arrayBuffer webReq;
  let encoding := or_else (encoding options) "utf-8" in
  decoder ← TextDecoder.new encoding;
  let buffer := TextDecoder.decode decoder ab in
  if Text.is_empty buffer then Return empty_object
  else if bool_decide (raw options = Some true) then Return (raw_object buffer)
  else dispatch (effectiveContentType webReq options) buffer.

(** [getBody]: the normalisation comes before the [try]; the [catch]
    block calls [onError], if there is one, and returns [{}]. *)
Definition getBody (req : RequestInput) (options : IBodyOptions) : Settled JSValue :=
  match toWebRequest req with
  | Throw e => {| outcome := Throw e; onError_calls := [] |}
  | Return webReq =>
      match getBody_try webReq options with
      | Return v => {| outcome := Return v; onError_calls := [] |}
      | Throw err =>
          match onError options with
          | Some handler =>
              match handler err with
              | Return _ => {| outcome := Return empty_object; onError_calls := [err] |}
              | Throw e => {| outcome := Throw e; onError_calls := [err] |}
              end
          | None => {| outcome := Return empty_object; onError_calls := [] |}
          end
      end
  end.

(** [bodyData]: [params] is computed before the body is awaited. *)
Definition bodyData (req : RequestInput) (options : IOptions)
  : Settled (gmap string string * JSValue) :=
  match toWebRequest req with
  | Throw e => {| outcome := Throw e; onError_calls := [] |}
  | Return webReq =>
      match getParams (Standard webReq) with
      | Throw e => {| outcome := Throw e; onError_calls := [] |}
      | Return params =>
          let b := getBody (Standard webReq) options in
          {| outcome := body ← outcome b; Return (params, body);
             onError_calls := onError_calls b |}
      end
  end.

End Program.

(** * Reference definitions for the statements *)

(** The first value of a list of candidates that is a non-empty string,
    or the empty string. *)
Fixpoint first_non_empty (candidates : list (option string)) : string :=
  match candidates with
  | [] => EmptyString
  | Some (String c s) :: _ => String c s
  | _ :: rest => first_non_empty rest
  end.

(** The value of the last entry for key [k]. *)
Fixpoint last_value (k : string) (entries : list (string * string)) : option string :=
  match entries with
  | [] => None
  | (k', v) :: rest =>
      match last_value k rest with
      | Some v' => Some v'
      | None => if String.eqb k k' then Some v else None
      end
  end.

(** The query component of a relative reference: what stands between the
    first question mark and the first number sign, when the question mark
    comes first. *)
Definition query_component (reference : string) : string :=
  Text.tail (Text.break (Ascii.eqb "?") (Text.break (Ascii.eqb "#") reference).1).2.

(** A string that the URL parser's removal of white space leaves alone:
    no tab or newline, no control character or space at its end. *)
Definition no_stripped_whitespace (s : string) : Prop :=
  Text.filter (fun c => negb (Text.is_tab_or_newline c)) s = s
  /\ Text.drop_while_end Text.is_c0_or_space s = s.

(** The content-type dispatch with prefixes compared without regard to
    case, as the specification words it. *)
Definition dispatch_ignoring_case (contentType buffer : string) : completion JSValue :=
  let lowered := Text.lowercase contentType in
  if Text.startsWith lowered "application/json" then JSON.parse buffer
  else if Text.startsWith lowered "application/x-www-form-urlencoded"
  then Return (string_object (Object.fromEntries (URLSearchParams.new buffer)))
  else if Text.startsWith lowered "text/plain" then Return (text_object buffer)
  else Return (raw_object buffer).

Definition with_backContentType (options : IBodyOptions) (back : option string) : IBodyOptions :=
  {| encoding := encoding options; raw := raw options; contentType := contentType options;
     backContentType := back; onError := onError options |}.

(** * Definitions used in the proofs *)

Module Shapes.
Import Text URLSyntax URL.

(** A percent-encode set that leaves escapes alone: it contains neither
    the percent sign nor a hexadecimal digit. *)
Definition keeps_escapes (set : ascii -> bool) : Prop :=
  set "%"%char = false /\ forall c, is_hex c = true -> set c = false.

(** The two characters after a percent sign, when both are hexadecimal
    digits, with the rest of the string. *)
Definition hexpair (s : string) : option (N * N * string) :=
  match s with
  | String h (String l w) =>
      match hex_value h, hex_value l with
      | Some a, Some b => Some (a, b, w)
      | _, _ => None
      end
  | _ => None
  end.

(** A visible character: neither a C0 control nor a space. *)
Definition visible (c : ascii) : bool := negb (is_c0_or_space c).

(** The characters of a scheme of the HTTP family. *)
Definition scheme_safe (c : ascii) : bool :=
  host_safe c && negb (Ascii.eqb ":" c).

Definition port_text (p : option N) : string :=
  match p with
  | Some n => ":" +:+ decimal n
  | None => EmptyString
  end.

Definition query_text (q : option string) : string :=
  match q with
  | Some q => "?" +:+ q
  | None => EmptyString
  end.

Definition fragment_text (f : option string) : string :=
  match f with
  | Some f => "#" +:+ f
  | None => EmptyString
  end.

(** URLs in normal form: what the parser produces for the HTTP family of
    schemes when no credentials are given. *)
Definition normal `{Platform} (u : URL.t) : Prop :=
  is_Some (default_port (scheme u))
  /\ includes_credentials u = false
  /\ (exists h, host u = Some h /\ serialized_host h = true /\ parse_host h = Some h)
  /\ match port u with
     | None => True
     | Some n => (n <= 65535)%N /\ default_port (scheme u) <> Some n
     end
  /\ serialized_path (path u) = true
  /\ path_state (path u) = path u
  /\ match query u with
     | None => True
     | Some q => all (fun c => negb (special_query_set c)) q = true
     end
  /\ match fragment u with
     | None => True
     | Some f => all (fun c => negb (fragment_set c)) f = true
     end.

End Shapes.

(** * A platform without tables

    Hosts other than ASCII words do not parse, schemes other than the
    HTTP family do not parse, only UTF-8 decodes, and a path that is not
    in serialised form already becomes the root path.  It shows that the
    laws of [Platform] can be met, and it agrees with every platform on
    the examples below, whose hosts are ASCII words and whose paths need
    no normalisation. *)

Definition plain_path (p : string) : string :=
  if URLSyntax.serialized_path p then p else "/".

Definition plain_platform : Platform :=
  {| host_tables := fun _ => None;
     path_state := plain_path;
     other_scheme := fun _ _ => None;
     legacy_encoding := fun _ => None;
     host_tables_serialized := fun s h (E : None = Some h) => ltac:(discriminate E);
     host_tables_stable := fun s h (E : None = Some h) => ltac:(discriminate E);
     path_state_serialized := fun p =>
       ltac:(unfold plain_path;
             destruct (URLSyntax.serialized_path p) eqn:E; [exact E | reflexivity]);
     path_state_stable := fun p =>
       ltac:(unfold plain_path;
             destruct (URLSyntax.serialized_path p) eqn:E; [rewrite E; reflexivity | reflexivity]) |}.

(** ** Example requests *)

Definition quoted (s : string) : string :=
  String "034" (s +:+ String "034" EmptyString).

Definition node (m u : string) (h : list (string * string)) (b : string) : IncomingMessage.t :=
  {| IncomingMessage.method := Some m;
     IncomingMessage.url := Some u;
     IncomingMessage.headers := prod_map id IncomingMessage.One <$> h;
     IncomingMessage.stream := Return (list_byte_of_string b);
     IncomingMessage.disturbed := false |}.

Definition json_header : list (string * string) := [("content-type", "application/json")].

(** [{"a":1}] *)
Definition json_a1 : string := "{" +:+ quoted "a" +:+ ":1}".

Definition observe : IBodyOptions :=
  {| encoding := None; raw := None; contentType := None; backContentType := None;
     onError := Some (fun _ => Return tt) |}.

Definition observe_and_throw : IBodyOptions :=
  {| encoding := None; raw := None; contentType := None; backContentType := None;
     onError := Some (fun _ => Throw (UserError "handler")) |}.

(** A POST of malformed JSON, [{a:], declared as [application/json]. *)
Definition malformed_json : RequestInput :=
  Legacy (node "POST" "/" json_header "{a:").

(** A standard request that declares [text/plain]. *)
Definition plain_text_request : Request.t :=
  {| Request.method := "POST"; Request.url := "http://localhost/";
     Request.headers := [("content-type", "text/plain")];
     Request.body := Some (Return (list_byte_of_string "hi")); Request.bodyUsed := false |}.

Definition fallback_json : IBodyOptions :=
  {| encoding := None; raw := None; contentType := Some EmptyString;
     backContentType := Some "application/json"; onError := None |}.

Definition raw_only : IBodyOptions :=
  {| encoding := None; raw := Some true; contentType := Some "application/json";
     backContentType := None; onError := Some (fun _ => Return tt) |}.

(** * Definitions for the further properties *)

(** The url of a legacy request that [toWebRequest] completes with
    [http://localhost]: it is undefined or does not start with [http]. *)
Definition completed_url (url : option string) : Prop :=
  match url with
  | Some u => Text.startsWith u "http" = false
  | None => True
  end.

(** The same legacy request, read from or not as it is, whose stream
    delivers something else. *)
Definition with_stream (nodeReq : IncomingMessage.t) (stream : completion (list byte))
  : IncomingMessage.t :=
  {| IncomingMessage.method := IncomingMessage.method nodeReq;
     IncomingMessage.url := IncomingMessage.url nodeReq;
     IncomingMessage.headers := IncomingMessage.headers nodeReq;
     IncomingMessage.stream := stream;
     IncomingMessage.disturbed := IncomingMessage.disturbed nodeReq |}.

(** A legacy POST whose body was read before. *)
Definition consumed_message : IncomingMessage.t :=
  {| IncomingMessage.method := Some "POST";
     IncomingMessage.url := Some "/x?a=1";
     IncomingMessage.headers := [];
     IncomingMessage.stream := Return [];
     IncomingMessage.disturbed := true |}.

(** The headers that the [Request] constructor is given for a legacy
    headers object: its entries in order, the values converted to strings
    and trimmed of HTTP white space. *)
Definition canonical_headers (entries : list (string * IncomingMessage.HeaderValue))
  : Headers.t :=
  (fun kv => (kv.1, Text.trim Text.is_http_whitespace (IncomingMessage.to_string kv.2)))
    <$> Object.copyEntries entries.

(** A legacy request without method. *)
Definition response_message : IncomingMessage.t :=
  {| IncomingMessage.method := None;
     IncomingMessage.url := Some "/";
     IncomingMessage.headers := [];
     IncomingMessage.stream := Return [];
     IncomingMessage.disturbed := false |}.

(** A standard request whose body was read before. *)
Definition consumed_request : Request.t :=
  {| Request.method := "POST"; Request.url := "http://localhost/";
     Request.headers := [("content-type", "application/json")];
     Request.body := Some (Return (list_byte_of_string "{}")); Request.bodyUsed := true |}.

Definition form_header : list (string * string) :=
  [("content-type", "application/x-www-form-urlencoded")].

(** * The body parser *)

Section BodyParser.
Context `{Platform}.

Lemma getBody_after_normalization req options webReq :
  toWebRequest req = Return webReq ->
  getBody req options =
    match getBody_try webReq options with
    | Return v => {| outcome := Return v; onError_calls := [] |}
    | Throw err =>
        match onError options with
        | Some handler =>
            match handler err with
            | Return _ => {| outcome := Return empty_object; onError_calls := [err] |}
            | Throw e => {| outcome := Throw e; onError_calls := [err] |}
            end
        | None => {| outcome := Return empty_object; onError_calls := [] |}
        end
    end.
Proof. intros E. unfold getBody. by rewrite E. Qed.

Lemma getBody_normalization_throws req options e :
  toWebRequest req = Throw e ->
  getBody req options = {| outcome := Throw e; onError_calls := [] |}.
Proof. intros E. unfold getBody. by rewrite E. Qed.

Lemma getBody_try_returns req options webReq v :
  toWebRequest req = Return webReq ->
  getBody_try webReq options = Return v ->
  getBody req options = {| outcome := Return v; onError_calls := [] |}.
Proof. intros E T. rewrite (getBody_after_normalization _ _ _ E). by rewrite T. Qed.

(** The [try] block once the body is read and decoded. *)
Lemma getBody_try_decoded webReq options ab decoder :
  Request.arrayBuffer webReq = Return ab ->
  TextDecoder.new (or_else (encoding options) "utf-8") = Return decoder ->
  getBody_try webReq options =
    let buffer := TextDecoder.decode decoder ab in
    if Text.is_empty buffer then Return empty_object
    else if bool_decide (raw options = Some true) then Return (raw_object buffer)
    else dispatch (effectiveContentType webReq options) buffer.
Proof. intros A D. unfold getBody_try. rewrite A. simpl. rewrite D. reflexivity. Qed.

Lemma getBody_try_dispatches webReq options ab decoder :
  Request.arrayBuffer webReq = Return ab ->
  TextDecoder.new (or_else (encoding options) "utf-8") = Return decoder ->
  Text.is_empty (TextDecoder.decode decoder ab) = false ->
  raw options <> Some true ->
  getBody_try webReq options =
    dispatch (effectiveContentType webReq options) (TextDecoder.decode decoder ab).
Proof.
  intros A D N R. rewrite (getBody_try_decoded _ _ _ _ A D). simpl.
  rewrite N. by rewrite bool_decide_eq_false_2.
Qed.

(** Two prefixes of one string: one is a prefix of the other. *)
Lemma prefix_exclusive p q s :
  String.prefix p q = false ->
  String.prefix q p = false ->
  String.prefix p s = true ->
  String.prefix q s = false.
Proof.
  revert q s.
  induction p as [|a p IH]; intros q s Hpq Hqp Hp.
  - destruct q; discriminate.
  - destruct q as [|b q]; [discriminate|].
    destruct s as [|c s]; [discriminate|].
    simpl in *.
    destruct (ascii_dec a c) as [->|]; [|discriminate].
    destruct (ascii_dec b c) as [->|]; [|reflexivity].
    destruct (ascii_dec c c); [|congruence].
    by apply IH.
Qed.

Lemma startsWith_exclusive s p q :
  Text.startsWith s p = true ->
  String.prefix p q = false ->
  String.prefix q p = false ->
  Text.startsWith s q = false.
Proof. intros E Hpq Hqp. exact (prefix_exclusive p q s Hpq Hqp E). Qed.

Lemma dispatch_json ct buffer :
  Text.startsWith ct "application/json" = true ->
  dispatch ct buffer = JSON.parse buffer.
Proof. intros E. unfold dispatch. by rewrite E. Qed.

Lemma dispatch_urlencoded ct buffer :
  Text.startsWith ct "application/x-www-form-urlencoded" = true ->
  dispatch ct buffer = Return (string_object (Object.fromEntries (URLSearchParams.new buffer))).
Proof.
  intros E. unfold dispatch.
  rewrite (startsWith_exclusive _ _ "application/json" E eq_refl eq_refl).
  by rewrite E.
Qed.

Lemma dispatch_text ct buffer :
  Text.startsWith ct "text/plain" = true ->
  dispatch ct buffer = Return (text_object buffer).
Proof.
  intros E. unfold dispatch.
  rewrite (startsWith_exclusive _ _ "application/json" E eq_refl eq_refl).
  rewrite (startsWith_exclusive _ _ "application/x-www-form-urlencoded" E eq_refl eq_refl).
  by rewrite E.
Qed.

Lemma dispatch_other ct buffer :
  Text.startsWith ct "application/json" = false ->
  Text.startsWith ct "application/x-www-form-urlencoded" = false ->
  Text.startsWith ct "text/plain" = false ->
  dispatch ct buffer = Return (raw_object buffer).
Proof. intros J U T. unfold dispatch. rewrite J, U, T. destruct (Text.startsWith ct "multipart/form-data"); reflexivity. Qed.

Lemma dispatch_multipart ct buffer :
  Text.startsWith ct "multipart/form-data" = true ->
  dispatch ct buffer = Return (raw_object buffer).
Proof.
  intros E. apply dispatch_other.
  - exact (startsWith_exclusive _ _ "application/json" E eq_refl eq_refl).
  - exact (startsWith_exclusive _ _ "application/x-www-form-urlencoded" E eq_refl eq_refl).
  - exact (startsWith_exclusive _ _ "text/plain" E eq_refl eq_refl).
Qed.

(** C1 (amended): once normalisation has returned, and provided the
    [onError] handler, if there is one, returns, [getBody] resolves.  Every
    error of the [try] block (reading the body, constructing the decoder,
    parsing JSON) is caught: the handler is called with it and the call
    resolves to the empty object, with or without a handler. *)
Theorem getBody_contains_errors req options webReq :
  toWebRequest req = Return webReq ->
  (forall handler err, onError options = Some handler -> handler err = Return tt) ->
  (exists v, outcome (getBody req options) = Return v)
  /\ (forall err, getBody_try webReq options = Throw err ->
        outcome (getBody req options) = Return empty_object
        /\ onError_calls (getBody req options)
           = match onError options with
             | Some _ => [err]
             | None => []
             end)
  /\ (forall err, Request.arrayBuffer webReq = Throw err ->
        getBody_try webReq options = Throw err)
  /\ (forall ab err, Request.arrayBuffer webReq = Return ab ->
        TextDecoder.new (or_else (encoding options) "utf-8") = Throw err ->
        getBody_try webReq options = Throw err)
  /\ (forall ab decoder err, Request.arrayBuffer webReq = Return ab ->
        TextDecoder.new (or_else (encoding options) "utf-8") = Return decoder ->
        Text.is_empty (TextDecoder.decode decoder ab) = false ->
        raw options <> Some true ->
        Text.startsWith (effectiveContentType webReq options) "application/json" = true ->
        JSON.parse (TextDecoder.decode decoder ab) = Throw err ->
        getBody_try webReq options = Throw err).
Proof.
  intros N Hh. rewrite (getBody_after_normalization _ _ _ N).
  split; [|split; [|split; [|split]]].
  - destruct (getBody_try webReq options) as [v|err]; [by eexists|].
    destruct (onError options) as [handler|] eqn:O; [|by eexists].
    rewrite (Hh handler err eq_refl). by eexists.
  - intros err T. rewrite T.
    destruct (onError options) as [handler|] eqn:O; [|done].
    by rewrite (Hh handler err eq_refl).
  - intros err A. unfold getBody_try. by rewrite A.
  - intros ab err A D. unfold getBody_try. rewrite A. simpl. by rewrite D.
  - intros ab decoder err A D N' R J P.
    rewrite (getBody_try_dispatches _ _ _ _ A D N' R).
    by rewrite (dispatch_json _ _ J).
Qed.

(** C5 (amended): for a non-empty decoded text with [options.raw] unset,
    the dispatch is a case-sensitive prefix match of the effective content
    type against the lower-case names: [application/json] is parsed as
    JSON, [application/x-www-form-urlencoded] as a form, [text/plain]
    gives [{ text }], [multipart/form-data] and anything else [{ raw }]. *)
Theorem getBody_dispatch_case_sensitive req options webReq ab decoder :
  toWebRequest req = Return webReq ->
  Request.arrayBuffer webReq = Return ab ->
  TextDecoder.new (or_else (encoding options) "utf-8") = Return decoder ->
  Text.is_empty (TextDecoder.decode decoder ab) = false ->
  raw options <> Some true ->
  let buffer := TextDecoder.decode decoder ab in
  let ct := effectiveContentType webReq options in
  (Text.startsWith ct "application/json" = true ->
     getBody_try webReq options = JSON.parse buffer
     /\ forall v, JSON.parse buffer = Return v -> outcome (getBody req options) = Return v)
  /\ (Text.startsWith ct "application/x-www-form-urlencoded" = true ->
        outcome (getBody req options)
        = Return (string_object (Object.fromEntries (URLSearchParams.new buffer))))
  /\ (Text.startsWith ct "text/plain" = true ->
        outcome (getBody req options) = Return (text_object buffer))
  /\ (Text.startsWith ct "multipart/form-data" = true ->
        outcome (getBody req options) = Return (raw_object buffer))
  /\ (Text.startsWith ct "application/json" = false ->
      Text.startsWith ct "application/x-www-form-urlencoded" = false ->
      Text.startsWith ct "text/plain" = false ->
        outcome (getBody req options) = Return (raw_object buffer)).
Proof.
  intros N A D NE R buffer ct.
  pose proof (getBody_try_dispatches _ _ _ _ A D NE R) as T.
  fold buffer ct in T.
  split; [|split; [|split; [|split]]].
  - intros J. rewrite (dispatch_json _ _ J) in T. split; [exact T|].
    intros v P. rewrite P in T. by rewrite (getBody_try_returns _ _ _ _ N T).
  - intros U. rewrite (dispatch_urlencoded _ _ U) in T.
    by rewrite (getBody_try_returns _ _ _ _ N T).
  - intros X. rewrite (dispatch_text _ _ X) in T.
    by rewrite (getBody_try_returns _ _ _ _ N T).
  - intros M. rewrite (dispatch_multipart _ _ M) in T.
    by rewrite (getBody_try_returns _ _ _ _ N T).
  - intros J U X. rewrite (dispatch_other _ _ J U X) in T.
    by rewrite (getBody_try_returns _ _ _ _ N T).
Qed.

Lemma or_else_first_non_empty a b c :
  or_else a (or_else b (or_else c EmptyString)) = first_non_empty [a; b; c].
Proof. by destruct a as [[|? ?]|], b as [[|? ?]|], c as [[|? ?]|]. Qed.

(** C6: the content type used for the dispatch is the first non-empty
    value among [options.contentType], the [content-type] header and
    [options.backContentType], or the empty string; when the override or
    the header is non-empty, [backContentType] has no influence on the
    call. *)
Theorem effectiveContentType_precedence req options webReq :
  toWebRequest req = Return webReq ->
  effectiveContentType webReq options
  = first_non_empty [contentType options;
                     Headers.get (Request.headers webReq) "content-type";
                     backContentType options]
  /\ (forall ab decoder,
        Request.arrayBuffer webReq = Return ab ->
        TextDecoder.new (or_else (encoding options) "utf-8") = Return decoder ->
        Text.is_empty (TextDecoder.decode decoder ab) = false ->
        raw options <> Some true ->
        getBody_try webReq options
        = dispatch (first_non_empty [contentType options;
                                     Headers.get (Request.headers webReq) "content-type";
                                     backContentType options])
                   (TextDecoder.decode decoder ab))
  /\ (first_non_empty [contentType options;
                       Headers.get (Request.headers webReq) "content-type"] <> EmptyString ->
      forall back, getBody req (with_backContentType options back) = getBody req options).
Proof.
  intros N.
  assert (E : forall o, effectiveContentType webReq o
              = first_non_empty [contentType o;
                                 Headers.get (Request.headers webReq) "content-type";
                                 backContentType o])
    by (intros o; apply or_else_first_non_empty).
  split; [apply E|split].
  - intros ab decoder A D NE R. rewrite <- E. by apply getBody_try_dispatches.
  - intros NE back.
    assert (T : getBody_try webReq (with_backContentType options back)
                = getBody_try webReq options).
    { unfold getBody_try. simpl.
      replace (effectiveContentType webReq (with_backContentType options back))
        with (effectiveContentType webReq options); [done|].
      rewrite !E. simpl.
      destruct (contentType options) as [[|? ?]|]; try done;
        destruct (Headers.get _ _) as [[|? ?]|]; try done. }
    rewrite !(getBody_after_normalization _ _ _ N), T. done.
Qed.

(** C7: when the decoded body text is empty, [getBody] resolves to the
    empty object whatever the options are (content types, [raw]), and
    [onError] is not called. *)
Theorem getBody_empty_body req options webReq ab decoder :
  toWebRequest req = Return webReq ->
  Request.arrayBuffer webReq = Return ab ->
  TextDecoder.new (or_else (encoding options) "utf-8") = Return decoder ->
  TextDecoder.decode decoder ab = EmptyString ->
  getBody req options = {| outcome := Return empty_object; onError_calls := [] |}.
Proof.
  intros N A D E. apply (getBody_try_returns _ _ _ _ N).
  rewrite (getBody_try_decoded _ _ _ _ A D). simpl. by rewrite E.
Qed.

(** C9 (amended): a value [getBody] resolves to is the value [JSON.parse]
    returns for the body text (any JSON value, not only a mapping), the
    mapping of a form, [{ text }], [{ raw }], or the empty object; the
    empty object stands for an empty body or a caught error. *)
Theorem getBody_result_shapes req options v :
  outcome (getBody req options) = Return v ->
  exists webReq, toWebRequest req = Return webReq
  /\ ((exists err, getBody_try webReq options = Throw err /\ v = empty_object)
      \/ exists ab decoder,
           Request.arrayBuffer webReq = Return ab
           /\ TextDecoder.new (or_else (encoding options) "utf-8") = Return decoder
           /\ let buffer := TextDecoder.decode decoder ab in
              (buffer = EmptyString /\ v = empty_object)
              \/ (buffer <> EmptyString
                  /\ (JSON.parse buffer = Return v
                      \/ v = string_object (Object.fromEntries (URLSearchParams.new buffer))
                      \/ v = text_object buffer
                      \/ v = raw_object buffer))).
Proof.
  intros O. destruct (toWebRequest req) as [webReq|e] eqn:N;
    [|by rewrite (getBody_normalization_throws _ _ _ N) in O].
  exists webReq. split; [done|].
  rewrite (getBody_after_normalization _ _ _ N) in O.
  destruct (getBody_try webReq options) as [w|err] eqn:T.
  - right. simpl in O. injection O as ->.
    unfold getBody_try in T.
    destruct (Request.arrayBuffer webReq) as [ab|] eqn:A; [|done]. simpl in T.
    destruct (TextDecoder.new _) as [decoder|] eqn:D; [|done]. simpl in T.
    exists ab, decoder. split; [done|split; [done|]]. simpl.
    destruct (TextDecoder.decode decoder ab) as [|c s] eqn:B; simpl in T.
    + left. split; [done|congruence].
    + right. split; [done|].
      destruct (bool_decide _); [right; right; right; congruence|].
      unfold dispatch in T.
      repeat (destruct (Text.startsWith _ _) in T;
              [first [ by left | right; left; congruence
                     | right; right; left; congruence
                     | right; right; right; congruence ]|]).
      right; right; right; congruence.
  - left. exists err. split; [done|].
    destruct (onError options) as [handler|]; [|simpl in O; congruence].
    destruct (handler err); simpl in O; congruence.
Qed.

(** C10 (amended): in one call [onError] is called at most once, and only
    with an error caught from the [try] block; the call then resolves to
    the empty object, unless the handler itself throws, in which case the
    call rejects with the handler's error.  When the [try] block returns
    (a parsed body, or the empty object of an empty body) [onError] is not
    called. *)
Theorem getBody_onError_calls req options :
  length (onError_calls (getBody req options)) <= 1
  /\ (forall err, err ∈ onError_calls (getBody req options) ->
        exists webReq handler,
          toWebRequest req = Return webReq
          /\ getBody_try webReq options = Throw err
          /\ onError options = Some handler
          /\ (outcome (getBody req options) = Return empty_object
              \/ exists e, handler err = Throw e
                           /\ outcome (getBody req options) = Throw e))
  /\ (forall webReq v,
        toWebRequest req = Return webReq ->
        getBody_try webReq options = Return v ->
        getBody req options = {| outcome := Return v; onError_calls := [] |}).
Proof.
  split; [|split].
  - unfold getBody. repeat case_match; simpl; lia.
  - intros err I.
    destruct (toWebRequest req) as [webReq|e] eqn:N;
      [|rewrite (getBody_normalization_throws _ _ _ N) in I; by apply elem_of_nil in I].
    rewrite (getBody_after_normalization _ _ _ N) in I |- *.
    destruct (getBody_try webReq options) as [w|err'] eqn:T;
      [by apply elem_of_nil in I|].
    destruct (onError options) as [handler|] eqn:O; [|by apply elem_of_nil in I].
    exists webReq, handler.
    destruct (handler err') as [u|e] eqn:Hd; simpl in I;
      apply list_elem_of_singleton in I; subst err'.
    + repeat split; try done. rewrite Hd. by left.
    + repeat split; try done. rewrite Hd. right. by exists e.
  - intros webReq v N T. by apply (getBody_try_returns _ _ _ _ N).
Qed.

End BodyParser.

(** * Facts about strings *)

Module TextFacts.
Import Text.

#[local] Arguments String.append : simpl nomatch.

Lemma append_empty_r s : s +:+ EmptyString = s.
Proof. induction s as [|c s IH]; [done|]. change (String c (s +:+ EmptyString) = String c s). by rewrite IH. Qed.

Lemma append_assoc a b c : (a +:+ b) +:+ c = a +:+ (b +:+ c).
Proof.
  induction a as [|x a IH]; [done|].
  change (String x ((a +:+ b) +:+ c) = String x (a +:+ (b +:+ c))). by rewrite IH.
Qed.

Lemma all_app p a b : all p (a +:+ b) = all p a && all p b.
Proof. induction a as [|c a IH]; simpl; [done|]. rewrite IH. by destruct (p c). Qed.

Lemma all_impl (p q : ascii -> bool) s :
  (forall c, p c = true -> q c = true) -> all p s = true -> all q s = true.
Proof.
  intros I. induction s as [|c s IH]; simpl; [done|].
  intros [Hc Hs]%andb_true_iff. rewrite (I c Hc). by apply IH.
Qed.

Lemma break_app p a b :
  all (fun c => negb (p c)) a = true ->
  break p (a +:+ b) = (a +:+ (break p b).1, (break p b).2).
Proof.
  induction a as [|c a IH]; simpl; [by destruct (break p b)|].
  intros [Hc Ha]%andb_true_iff. apply negb_true_iff in Hc. rewrite Hc.
  by rewrite (IH Ha).
Qed.

Lemma break_all p a :
  all (fun c => negb (p c)) a = true -> break p a = (a, EmptyString).
Proof.
  intros Ha. pose proof (break_app p a EmptyString Ha) as E.
  rewrite append_empty_r in E. rewrite E. simpl. by rewrite append_empty_r.
Qed.

Lemma break_append p s : (break p s).1 +:+ (break p s).2 = s.
Proof.
  induction s as [|c s IH]; simpl; [done|].
  destruct (p c); simpl; [done|]. destruct (break p s). simpl in *. by rewrite IH.
Qed.

Lemma break_prefix_clean p s : all (fun c => negb (p c)) (break p s).1 = true.
Proof.
  induction s as [|c s IH]; simpl; [done|].
  destruct (p c) eqn:E; simpl; [done|]. destruct (break p s). simpl in *. by rewrite E.
Qed.

(** What remains after [break] is empty or starts with a separator. *)
Lemma break_rest p s :
  (break p s).2 = EmptyString
  \/ exists c r, (break p s).2 = String c r /\ p c = true.
Proof.
  induction s as [|c s IH]; simpl; [by left|].
  destruct (p c) eqn:E; simpl; [right; by exists c, s|].
  destruct (break p s). simpl in *. exact IH.
Qed.

Lemma filter_app p a b : filter p (a +:+ b) = filter p a +:+ filter p b.
Proof. induction a as [|c a IH]; simpl; [done|]. rewrite IH. by destruct (p c). Qed.

Lemma filter_all p s : all p s = true -> filter p s = s.
Proof.
  induction s as [|c s IH]; simpl; [done|].
  intros [Hc Hs]%andb_true_iff. rewrite Hc. by rewrite (IH Hs).
Qed.

Lemma drop_while_end_app p a b :
  drop_while_end p a = a -> drop_while_end p b = b ->
  drop_while_end p (a +:+ b) = a +:+ b.
Proof.
  induction a as [|c a IH]; simpl; [done|]. intros Ha Hb.
  destruct (drop_while_end p a) as [|d r] eqn:E.
  - destruct (p c); [done|]. injection Ha as <-. simpl. rewrite Hb.
    destruct b; [|done]. done.
  - injection Ha as Ha. rewrite (IH Ha Hb). by subst a.
Qed.

Lemma drop_while_end_all p s :
  all (fun c => negb (p c)) s = true -> drop_while_end p s = s.
Proof.
  induction s as [|c s IH]; simpl; [done|].
  intros [Hc Hs]%andb_true_iff. apply negb_true_iff in Hc.
  rewrite (IH Hs). rewrite Hc. by destruct s.
Qed.

Lemma is_empty_app a b : is_empty (a +:+ b) = is_empty a && is_empty b.
Proof. by destruct a. Qed.

Lemma map_app f a b : map f (a +:+ b) = map f a +:+ map f b.
Proof. induction a as [|c a IH]; simpl; [done|by rewrite IH]. Qed.

Lemma map_id_on (f : ascii -> ascii) p s :
  (forall c, p c = true -> f c = c) -> all p s = true -> map f s = s.
Proof.
  intros I. induction s as [|c s IH]; simpl; [done|].
  intros [Hc Hs]%andb_true_iff. by rewrite (I c Hc), (IH Hs).
Qed.

Lemma startsWith_head c r a p : startsWith (String c r) (String a p) = true -> a = c.
Proof.
  unfold startsWith.
  change (String.prefix (String a p) (String c r))
    with (if ascii_dec a c then String.prefix p r else false).
  by destruct (ascii_dec a c).
Qed.

End TextFacts.

(** * Facts about percent-encoding *)

Module PercentFacts.
Import Text TextFacts Shapes.

#[local] Arguments String.append : simpl nomatch.

Ltac each_byte c := destruct c as [[] [] [] [] [] [] [] []].

Lemma hex_char_high c : is_hex (hex_char (code c / 16)) = true.
Proof. each_byte c; reflexivity. Qed.

Lemma hex_char_low c : is_hex (hex_char (code c mod 16)) = true.
Proof. each_byte c; reflexivity. Qed.

Lemma hex_value_high c : hex_value (hex_char (code c / 16)) = Some (code c / 16)%N.
Proof. each_byte c; reflexivity. Qed.

Lemma hex_value_low c : hex_value (hex_char (code c mod 16)) = Some (code c mod 16)%N.
Proof. each_byte c; reflexivity. Qed.

Lemma byte_of_nibbles c : ascii_of_N (16 * (code c / 16) + code c mod 16) = c.
Proof. each_byte c; reflexivity. Qed.

Lemma hex_value_is_hex c : is_hex c = false -> hex_value c = None.
Proof.
  unfold is_hex, hex_value.
  destruct (is_digit c), (in_range 65 70 c), (in_range 97 102 c); done.
Qed.

Lemma is_hex_hex_value c : is_hex c = true -> is_Some (hex_value c).
Proof.
  unfold is_hex, hex_value.
  destruct (is_digit c), (in_range 65 70 c), (in_range 97 102 c); done.
Qed.

Lemma percent_not_hex : is_hex "%" = false.
Proof. reflexivity. Qed.

Section Encode.
Variable set : ascii -> bool.
Hypothesis Hset : keeps_escapes set.

Lemma set_not_percent c : set c = true -> Ascii.eqb c "%" = false.
Proof.
  intros Sc. destruct (Ascii.eqb_spec c "%") as [->|]; [|done].
  destruct Hset as [Hp _]. congruence.
Qed.

Lemma set_not_hex c : set c = true -> hex_value c = None.
Proof.
  intros Sc. apply hex_value_is_hex. destruct (is_hex c) eqn:E; [|done].
  destruct Hset as [_ Hh]. rewrite (Hh c E) in Sc. done.
Qed.

(** The output of the encoder has no byte of the set. *)
Lemma percent_encode_clean s :
  all (fun c => negb (set c)) (percent_encode set s) = true.
Proof.
  destruct Hset as [Hp Hh].
  induction s as [|c s IH]; simpl; [done|].
  destruct (set c) eqn:Sc.
  - simpl. by rewrite Hp, (Hh _ (hex_char_high c)), (Hh _ (hex_char_low c)).
  - simpl. by rewrite Sc.
Qed.

Lemma percent_encode_id s :
  all (fun c => negb (set c)) s = true -> percent_encode set s = s.
Proof.
  induction s as [|c s IH]; simpl; [done|].
  intros [Hc Hs]%andb_true_iff. apply negb_true_iff in Hc. rewrite Hc.
  by rewrite (IH Hs).
Qed.

Lemma percent_encode_idempotent s :
  percent_encode set (percent_encode set s) = percent_encode set s.
Proof. apply percent_encode_id, percent_encode_clean. Qed.

Lemma percent_encode_app a b :
  percent_encode set (a +:+ b) = percent_encode set a +:+ percent_encode set b.
Proof.
  induction a as [|c a IH]; simpl; [done|]. rewrite IH.
  by destruct (set c).
Qed.

Lemma is_empty_percent_encode s : is_empty (percent_encode set s) = is_empty s.
Proof.
  destruct s as [|c s]; simpl; [done|]. by destruct (set c).
Qed.

(** Splitting commutes with encoding when the separator is not encoded. *)
Lemma break_percent_encode p s :
  (forall c, p c = true -> set c = false) ->
  p "%"%char = false -> (forall c, is_hex c = true -> p c = false) ->
  break p (percent_encode set s)
  = (percent_encode set (break p s).1, percent_encode set (break p s).2).
Proof.
  intros Hps Hpp Hph. induction s as [|c s IH]; simpl; [done|].
  destruct (set c) eqn:Sc.
  - destruct (p c) eqn:Pc; [rewrite (Hps c Pc) in Sc; done|].
    simpl. rewrite Hpp, (Hph _ (hex_char_high c)), (Hph _ (hex_char_low c)), IH.
    destruct (break p s). simpl. by rewrite Sc.
  - simpl. destruct (p c) eqn:Pc; simpl; [by rewrite Sc|].
    rewrite IH. destruct (break p s). simpl. by rewrite Sc.
Qed.

End Encode.

Lemma keeps_escapes_special_query : keeps_escapes special_query_set.
Proof. split; [reflexivity|]. intros c. each_byte c; vm_compute; done. Qed.

Lemma keeps_escapes_query : keeps_escapes query_set.
Proof. split; [reflexivity|]. intros c. each_byte c; vm_compute; done. Qed.

Lemma keeps_escapes_fragment : keeps_escapes fragment_set.
Proof. split; [reflexivity|]. intros c. each_byte c; vm_compute; done. Qed.

End PercentFacts.

(** * Form decoding undoes query encoding *)

Module FormFacts.
Import Text TextFacts PercentFacts URLSearchParams Shapes.

#[local] Arguments String.append : simpl nomatch.

Lemma percent_decode_percent r :
  percent_decode (String "%" r)
  = match hexpair r with
    | Some (a, b, w) => String (ascii_of_N (16 * a + b)) (percent_decode w)
    | None => String "%" (percent_decode r)
    end.
Proof.
  destruct r as [|h [|l w]]; try reflexivity.
  simpl. by destruct (hex_value h), (hex_value l).
Qed.

Lemma percent_decode_other c r :
  Ascii.eqb c "%" = false -> percent_decode (String c r) = String c (percent_decode r).
Proof. intros E. simpl. by rewrite E. Qed.

Lemma hexpair_length s a b w : hexpair s = Some (a, b, w) -> String.length w < String.length s.
Proof.
  destruct s as [|h [|l r]]; simpl; try done.
  destruct (hex_value h), (hex_value l); try done.
  intros [= _ _ ->]. lia.
Qed.

Lemma hex_value_plus_to_space c : hex_value (plus_to_space c) = hex_value c.
Proof.
  unfold plus_to_space. destruct (Ascii.eqb_spec c "+") as [->|]; reflexivity.
Qed.

Lemma hexpair_map_plus r :
  hexpair (map plus_to_space r)
  = (fun '(a, b, w) => (a, b, map plus_to_space w)) <$> hexpair r.
Proof.
  destruct r as [|h [|l w]]; try reflexivity.
  simpl. rewrite !hex_value_plus_to_space.
  by destruct (hex_value h), (hex_value l).
Qed.

Section Encoded.
Variable set : ascii -> bool.
Hypothesis Hset : keeps_escapes set.
Hypothesis Hplus : set "+"%char = false.

Lemma hexpair_percent_encode r :
  hexpair (percent_encode set r)
  = (fun '(a, b, w) => (a, b, percent_encode set w)) <$> hexpair r.
Proof.
  destruct r as [|h [|l w]]; simpl.
  - reflexivity.
  - destruct (set h) eqn:Sh; simpl; [|reflexivity]. reflexivity.
  - destruct (set h) eqn:Sh; simpl.
    + by rewrite (set_not_hex set Hset h Sh).
    + destruct (set l) eqn:Sl; simpl.
      * rewrite (set_not_hex set Hset l Sl). by destruct (hex_value h).
      * by destruct (hex_value h), (hex_value l).
Qed.

Lemma decode_encoded_byte c r :
  set c = true ->
  percent_decode (map plus_to_space (percent_encode_byte c +:+ r))
  = String c (percent_decode (map plus_to_space r)).
Proof.
  intros Sc. unfold percent_encode_byte. simpl.
  rewrite !hex_value_plus_to_space, hex_value_high, hex_value_low.
  by rewrite byte_of_nibbles.
Qed.

Lemma plus_to_space_not_percent c :
  Ascii.eqb c "%" = false -> Ascii.eqb (plus_to_space c) "%" = false.
Proof. unfold plus_to_space. by destruct (Ascii.eqb_spec c "+") as [->|]. Qed.

(** Percent-decoding does not see the encoding of the query state. *)
Lemma percent_decode_encoded_upto n s :
  String.length s <= n ->
  percent_decode (map plus_to_space (percent_encode set s))
  = percent_decode (map plus_to_space s).
Proof.
  revert s. induction n as [|n IH]; intros s L.
  { destruct s; [done|simpl in L; lia]. }
  destruct s as [|c s]; [done|]. simpl in L.
  change (percent_encode set (String c s))
    with (if set c then percent_encode_byte c +:+ percent_encode set s
          else String c (percent_encode set s)).
  destruct (set c) eqn:Sc.
  - rewrite (decode_encoded_byte c _ Sc), (IH s) by lia.
    assert (Ep : Ascii.eqb c "%" = false) by exact (set_not_percent set Hset c Sc).
    assert (plus_to_space c = c) as Ec.
    { unfold plus_to_space. destruct (Ascii.eqb_spec c "+") as [->|]; [congruence|done]. }
    change (map plus_to_space (String c s)) with (String (plus_to_space c) (map plus_to_space s)).
    rewrite Ec. by rewrite (percent_decode_other c _ Ep).
  - change (map plus_to_space (String c ?x)) with (String (plus_to_space c) (map plus_to_space x)).
    destruct (Ascii.eqb_spec c "%") as [->|Nc].
    + change (plus_to_space "%") with "%"%char.
      rewrite !percent_decode_percent, !hexpair_map_plus, hexpair_percent_encode.
      destruct (hexpair s) as [[[a b] w]|] eqn:Hp; simpl.
      * rewrite (IH w); [done|]. apply hexpair_length in Hp. lia.
      * rewrite (IH s) by lia. done.
    + assert (Ascii.eqb c "%" = false) as Ep by (by apply Ascii.eqb_neq).
      rewrite !(percent_decode_other _ _ (plus_to_space_not_percent c Ep)).
      rewrite (IH s) by lia. done.
Qed.

Lemma decode_component_encoded s :
  decode_component (percent_encode set s) = decode_component s.
Proof.
  unfold decode_component. by rewrite (percent_decode_encoded_upto (String.length s) s).
Qed.

Hypothesis Hamp : set "&"%char = false.
Hypothesis Heq : set "="%char = false.

Lemma parse_pair_encoded piece :
  parse_pair (percent_encode set piece) = parse_pair piece.
Proof.
  unfold parse_pair.
  rewrite (break_percent_encode set (Ascii.eqb "=") piece).
  - pose proof (break_rest (Ascii.eqb "=") piece) as R.
    destruct (break (Ascii.eqb "=") piece) as [name rest]. cbn [fst snd] in *.
    destruct R as [->|(c & r & -> & Hc)].
    + cbn [percent_encode tail]. by rewrite decode_component_encoded.
    + apply Ascii.eqb_eq in Hc. subst c.
      change (percent_encode set (String "=" r))
        with (if set "=" then percent_encode_byte "=" +:+ percent_encode set r
              else String "=" (percent_encode set r)).
      rewrite Heq. cbn [tail]. by rewrite !decode_component_encoded.
  - intros c E. apply Ascii.eqb_eq in E. by subst c.
  - reflexivity.
  - intros c Hc. by destruct (Ascii.eqb_spec "=" c) as [<-|].
Qed.

Lemma split_on_nonempty p s : split_on p s <> [].
Proof. induction s as [|c s IH]; simpl; [done|]. destruct (split_on p s); [done|]. by destruct (p c). Qed.

Lemma split_on_encoded s :
  split_on (Ascii.eqb "&") (percent_encode set s)
  = percent_encode set <$> split_on (Ascii.eqb "&") s.
Proof.
  assert (forall x, is_hex x = true -> Ascii.eqb "&" x = false) as Hx.
  { intros x. each_byte x; vm_compute; done. }
  induction s as [|c s IH]; [done|].
  pose proof (split_on_nonempty (Ascii.eqb "&") s) as NE.
  change (percent_encode set (String c s))
    with (if set c then percent_encode_byte c +:+ percent_encode set s
          else String c (percent_encode set s)).
  change (split_on (Ascii.eqb "&") (String c s))
    with (match split_on (Ascii.eqb "&") s with
          | [] => [EmptyString]
          | piece :: rest =>
              if Ascii.eqb "&" c then EmptyString :: piece :: rest
              else String c piece :: rest
          end).
  destruct (split_on (Ascii.eqb "&") s) as [|piece rest]; [done|].
  destruct (set c) eqn:Sc.
  - assert (Ascii.eqb "&" c = false) as Nc.
    { destruct (Ascii.eqb_spec "&" c) as [<-|]; [congruence|done]. }
    rewrite Nc. unfold percent_encode_byte.
    change (split_on (Ascii.eqb "&")
              (String "%" (String (hex_char (code c / 16))
                 (String (hex_char (code c mod 16)) EmptyString)) +:+ percent_encode set s))
      with (match
              (match
                 (match split_on (Ascii.eqb "&") (percent_encode set s) with
                  | [] => [EmptyString]
                  | piece :: rest =>
                      if Ascii.eqb "&" (hex_char (code c mod 16))
                      then EmptyString :: piece :: rest
                      else String (hex_char (code c mod 16)) piece :: rest
                  end) with
               | [] => [EmptyString]
               | piece :: rest =>
                   if Ascii.eqb "&" (hex_char (code c / 16))
                   then EmptyString :: piece :: rest
                   else String (hex_char (code c / 16)) piece :: rest
               end) with
            | [] => [EmptyString]
            | piece :: rest => String "%" piece :: rest
            end).
    rewrite IH, (Hx _ (hex_char_high c)), (Hx _ (hex_char_low c)).
    cbn [fmap list_fmap percent_encode]. by rewrite Sc.
  - change (split_on (Ascii.eqb "&") (String c (percent_encode set s)))
      with (match split_on (Ascii.eqb "&") (percent_encode set s) with
            | [] => [EmptyString]
            | piece :: rest =>
                if Ascii.eqb "&" c then EmptyString :: piece :: rest
                else String c piece :: rest
            end).
    rewrite IH. cbn [fmap list_fmap].
    destruct (Ascii.eqb "&" c); cbn [fmap list_fmap percent_encode]; [done|].
    by rewrite Sc.
Qed.

(** The pairs of an encoded query are the pairs of the query. *)
Lemma parse_encoded s : parse (percent_encode set s) = parse s.
Proof.
  unfold parse. rewrite split_on_encoded.
  induction (split_on (Ascii.eqb "&") s) as [|piece rest IH]; [done|].
  rewrite fmap_cons. simpl.
  rewrite (is_empty_percent_encode set).
  destruct (is_empty piece); simpl; [exact IH|].
  rewrite parse_pair_encoded. f_equal. exact IH.
Qed.

End Encoded.

Lemma parse_special_query s : parse (percent_encode special_query_set s) = parse s.
Proof. by apply parse_encoded; [apply keeps_escapes_special_query| | |]. Qed.

End FormFacts.

(** * Parsing a serialised URL *)

Module URLFacts.
Import Text TextFacts PercentFacts URLSyntax URL Shapes.

#[local] Arguments String.append : simpl nomatch.

Lemma host_safe_visible c : host_safe c = true -> visible c = true.
Proof. each_byte c; vm_compute; done. Qed.

Lemma visible_not_newline c :
  visible c = true -> negb (is_tab_or_newline c) = true.
Proof. each_byte c; vm_compute; done. Qed.

Lemma drop_while_visible s :
  all visible s = true -> drop_while is_c0_or_space s = s.
Proof.
  destruct s as [|c s]; simpl; [done|].
  intros [Hc _]%andb_true_iff. unfold visible in Hc.
  apply negb_true_iff in Hc. by rewrite Hc.
Qed.

Lemma preprocess_visible s : all visible s = true -> preprocess s = s.
Proof.
  intros V. unfold preprocess, trim.
  rewrite (drop_while_visible s V), (drop_while_end_all _ s V).
  apply filter_all. exact (all_impl _ _ s visible_not_newline V).
Qed.

(** ** Decimal ports *)

Lemma decimal_value_decimal n : decimal_value (decimal n) = Some n.
Proof.
  unfold decimal_value, decimal. rewrite NilEmpty.usu. simpl.
  by rewrite DecimalN.Unsigned.of_to.
Qed.

Lemma string_of_uint_digits d : all is_digit (NilEmpty.string_of_uint d) = true.
Proof. induction d; simpl; try done. Qed.

Lemma decimal_digits n : all is_digit (decimal n) = true.
Proof. apply string_of_uint_digits. Qed.

Lemma decimal_nonempty n : is_empty (decimal n) = false.
Proof.
  unfold decimal. destruct n as [|p]; [done|]. simpl.
  pose proof (DecimalPos.Unsigned.to_uint_nonnil p) as NN.
  by destruct (Pos.to_uint p).
Qed.

Lemma digit_host_safe c : is_digit c = true -> host_safe c = true.
Proof. each_byte c; vm_compute; done. Qed.

Lemma digit_not_colon c : is_digit c = true -> negb (Ascii.eqb ":" c) = true.
Proof. each_byte c; vm_compute; done. Qed.

(** ** Hosts *)

Lemma alpha_lower c : is_alpha c = true -> is_alpha (to_lower c) = true.
Proof. each_byte c; vm_compute; done. Qed.

Lemma to_lower_idempotent c : to_lower (to_lower c) = to_lower c.
Proof. each_byte c; reflexivity. Qed.

Lemma alpha_host_safe c : is_alpha c = true -> host_safe c = true.
Proof. each_byte c; vm_compute; done. Qed.

Lemma alpha_no_bracket c :
  is_alpha c = true ->
  Ascii.eqb c ":" = false /\ Ascii.eqb c "[" = false /\ Ascii.eqb c "]" = false.
Proof. each_byte c; vm_compute; done. Qed.

Lemma all_alpha_lowercase s : all is_alpha s = true -> all is_alpha (lowercase s) = true.
Proof.
  induction s as [|c s IH]; [done|].
  change (is_alpha c && all is_alpha s = true
          -> is_alpha (to_lower c) && all is_alpha (lowercase s) = true).
  intros [Hc Hs]%andb_true_iff. by rewrite (alpha_lower c Hc), (IH Hs).
Qed.

Lemma lowercase_idempotent s : lowercase (lowercase s) = lowercase s.
Proof.
  induction s as [|c s IH]; [done|].
  change (String (to_lower (to_lower c)) (lowercase (lowercase s))
          = String (to_lower c) (lowercase s)).
  by rewrite to_lower_idempotent, IH.
Qed.

Lemma all_alpha_balanced s : all is_alpha s = true -> balanced false s = true.
Proof.
  induction s as [|c s IH]; simpl; [done|].
  intros [Hc Hs]%andb_true_iff.
  destruct (alpha_no_bracket c Hc) as (-> & -> & ->). simpl. by apply IH.
Qed.

Lemma simple_host_lowercase s :
  simple_host s = true ->
  simple_host (lowercase s) = true
  /\ lowercase (lowercase s) = lowercase s
  /\ serialized_host (lowercase s) = true.
Proof.
  unfold simple_host, serialized_host.
  intros [NE A]%andb_true_iff.
  assert (is_empty (lowercase s) = is_empty s) as -> by (by destruct s).
  pose proof (all_alpha_lowercase s A) as AL.
  rewrite NE, AL, (all_impl _ _ _ alpha_host_safe AL), (all_alpha_balanced _ AL).
  by rewrite lowercase_idempotent.
Qed.

Section WithPlatform.
Context `{Platform}.

(** The host parser returns serialised hosts, which it maps to
    themselves. *)
Lemma parse_host_serialized s h :
  parse_host s = Some h -> serialized_host h = true /\ parse_host h = Some h.
Proof.
  unfold parse_host. destruct (simple_host s) eqn:S.
  - intros [= <-]. destruct (simple_host_lowercase s S) as (S' & L & G).
    by rewrite S', L.
  - intros T. split; [exact (host_tables_serialized s h T)|].
    pose proof (host_tables_stable s h T) as St.
    destruct (simple_host h); [by rewrite St|done].
Qed.

End WithPlatform.

(** ** The port separator *)

Lemma split_port_balanced inside h rest :
  balanced inside h = true ->
  split_port inside (h +:+ rest)
  = (h +:+ (split_port false rest).1, (split_port false rest).2).
Proof.
  revert inside. induction h as [|c h IH]; intros inside; simpl.
  - destruct inside; [done|]. by destruct (split_port false rest).
  - destruct (Ascii.eqb c ":" && negb inside); [done|].
    intros B. by rewrite (IH _ B).
Qed.

Lemma split_port_host h :
  balanced false h = true -> split_port false h = (h, None).
Proof.
  intros B. pose proof (split_port_balanced false h EmptyString B) as E.
  rewrite append_empty_r in E. rewrite E. simpl. by rewrite append_empty_r.
Qed.

Lemma split_port_host_port h digits :
  balanced false h = true ->
  split_port false (h +:+ ":" +:+ digits) = (h, Some digits).
Proof.
  intros B. rewrite (split_port_balanced false h _ B). simpl.
  by rewrite append_empty_r.
Qed.

Lemma split_last_none p s :
  all (fun c => negb (p c)) s = true -> split_last p s = None.
Proof.
  induction s as [|c s IH]; simpl; [done|].
  intros [Hc Hs]%andb_true_iff. apply negb_true_iff in Hc.
  by rewrite (IH Hs), Hc.
Qed.

Lemma break_at_separator p s :
  (s = EmptyString \/ exists c r, s = String c r /\ p c = true) ->
  break p s = (EmptyString, s).
Proof. intros [->|(c & r & -> & Hc)]; simpl; [done|by rewrite Hc]. Qed.

(** ** URLs in normal form

    The URLs the parser produces for the HTTP family of schemes when no
    credentials are given. *)

Section Normal.
Context `{Platform}.

Lemma parse_port_bounds sch buffer p :
  parse_port sch buffer = Some p ->
  match p with
  | None => True
  | Some n => (n <= 65535)%N /\ default_port sch <> Some n
  end.
Proof.
  unfold parse_port. destruct buffer as [[|c digits]|]; try (by intros [= <-]).
  destruct (decimal_value _) as [n|]; simpl; [|done].
  destruct (65535 <? n)%N eqn:B; [done|]. apply N.ltb_ge in B.
  case_bool_decide as D; intros [= <-]; [done|]. done.
Qed.

Lemma special_is_special sch : is_Some (default_port sch) -> is_special sch = true.
Proof. intros S. unfold is_special. rewrite (bool_decide_eq_true_2 _ S). by destruct (String.eqb _ _). Qed.

Lemma special_authority_normal sch rest hier :
  special_authority sch rest = Some hier ->
  (exists h, h_host hier = Some h /\ serialized_host h = true /\ parse_host h = Some h)
  /\ match h_port hier with
     | None => True
     | Some n => (n <= 65535)%N /\ default_port sch <> Some n
     end
  /\ serialized_path (h_path hier) = true
  /\ path_state (h_path hier) = h_path hier.
Proof.
  unfold special_authority.
  destruct (break is_slash _) as [authority path_input].
  destruct (match split_last _ authority with Some _ => _ | None => _ end)
    as [credentials host_port].
  destruct (split_port false host_port) as [host_buffer port_buffer].
  destruct (is_empty host_buffer); [done|].
  destruct (parse_host host_buffer) as [h|] eqn:Hh; [|done]. simpl.
  destruct (parse_port sch port_buffer) as [p|] eqn:Hp; [|done]. simpl.
  destruct (match credentials with Some _ => _ | None => _ end) as [user pass].
  intros [= <-]. simpl.
  destruct (parse_host_serialized _ _ Hh) as [G1 G2].
  split; [by exists h|]. split; [exact (parse_port_bounds _ _ _ Hp)|].
  split; [apply path_state_serialized|apply path_state_stable].
Qed.

Lemma parse_normal s u :
  parse s = Some u ->
  is_Some (default_port (scheme u)) ->
  includes_credentials u = false ->
  normal u.
Proof.
  unfold parse.
  destruct (break (Ascii.eqb "#") _) as [before_fragment fragment_part].
  destruct (break (Ascii.eqb "?") _) as [before_query query_part].
  destruct (break (Ascii.eqb ":") _) as [scheme_part rest].
  destruct (is_empty rest || negb (valid_scheme scheme_part)); [done|].
  case_bool_decide as Sp.
  - destruct (special_authority _ _) as [hier|] eqn:A; [|done]. simpl.
    intros [= <-]. simpl. intros _ C.
    destruct (special_authority_normal _ _ _ A) as (Hh & Hp & Hs & Ht).
    repeat split; try done.
    + rewrite (special_is_special _ Sp).
      destruct (is_empty query_part); [done|].
      apply percent_encode_clean, keeps_escapes_special_query.
    + destruct (is_empty fragment_part); [done|].
      apply percent_encode_clean, keeps_escapes_fragment.
  - destruct (other_scheme _ _) as [hier|]; [|done]. simpl.
    intros [= <-]. simpl. intros S. done.
Qed.

End Normal.

(** ** Parsing what the serialiser wrote *)

Lemma host_safe_not_hash c : host_safe c = true -> negb (Ascii.eqb "#" c) = true.
Proof. each_byte c; vm_compute; done. Qed.
Lemma host_safe_not_question c : host_safe c = true -> negb (Ascii.eqb "?" c) = true.
Proof. each_byte c; vm_compute; done. Qed.
Lemma host_safe_not_slash c : host_safe c = true -> negb (is_slash c) = true.
Proof. each_byte c; vm_compute; done. Qed.
Lemma host_safe_not_at c : host_safe c = true -> negb (Ascii.eqb "@" c) = true.
Proof. each_byte c; vm_compute; done. Qed.
Lemma path_safe_visible c : path_safe c = true -> visible c = true.
Proof. each_byte c; vm_compute; done. Qed.
Lemma path_safe_not_hash c : path_safe c = true -> negb (Ascii.eqb "#" c) = true.
Proof. each_byte c; vm_compute; done. Qed.
Lemma path_safe_not_question c : path_safe c = true -> negb (Ascii.eqb "?" c) = true.
Proof. each_byte c; vm_compute; done. Qed.
Lemma query_safe_visible c : negb (special_query_set c) = true -> visible c = true.
Proof. each_byte c; vm_compute; done. Qed.
Lemma query_safe_not_hash c :
  negb (special_query_set c) = true -> negb (Ascii.eqb "#" c) = true.
Proof. each_byte c; vm_compute; done. Qed.
Lemma fragment_safe_visible c : negb (fragment_set c) = true -> visible c = true.
Proof. each_byte c; vm_compute; done. Qed.

Lemma special_scheme_facts sch :
  is_Some (default_port sch) ->
  valid_scheme sch = true /\ lowercase sch = sch /\ all scheme_safe sch = true.
Proof.
  intros [d D]. unfold default_port in D.
  destruct (String.eqb_spec sch "http") as [->|_]; [by vm_compute|].
  destruct (String.eqb_spec sch "https") as [->|_]; [by vm_compute|].
  destruct (String.eqb_spec sch "ws") as [->|_]; [by vm_compute|].
  destruct (String.eqb_spec sch "wss") as [->|_]; [by vm_compute|].
  destruct (String.eqb_spec sch "ftp") as [->|_]; [by vm_compute|].
  done.
Qed.

Lemma scheme_safe_host_safe c : scheme_safe c = true -> host_safe c = true.
Proof. unfold scheme_safe. by intros [? _]%andb_true_iff. Qed.
Lemma scheme_safe_not_colon c : scheme_safe c = true -> negb (Ascii.eqb ":" c) = true.
Proof. unfold scheme_safe. by intros [_ ?]%andb_true_iff. Qed.

Section Roundtrip.
Context `{Platform}.

Lemma port_text_safe p : all host_safe (port_text p) = true.
Proof.
  destruct p as [n|]; [|done]. simpl.
  exact (all_impl _ _ _ digit_host_safe (decimal_digits n)).
Qed.

Lemma serialize_normal_form sch h po pa qu fr :
  serialize {| scheme := sch; username := EmptyString; password := EmptyString;
               host := Some h; port := po; path := pa; query := qu; fragment := fr |}
  = sch +:+ ":" +:+ "//" +:+ h +:+ port_text po +:+ pa +:+ query_text qu +:+ fragment_text fr.
Proof.
  unfold serialize, includes_credentials, port_text, query_text, fragment_text. simpl.
  f_equal. f_equal. f_equal. by rewrite !append_assoc.
Qed.

Lemma special_authority_serialized sch h po pa :
  serialized_host h = true ->
  parse_host h = Some h ->
  match po with
  | None => True
  | Some n => (n <= 65535)%N /\ default_port sch <> Some n
  end ->
  serialized_path pa = true ->
  path_state pa = pa ->
  special_authority sch ("//" +:+ h +:+ port_text po +:+ pa)
  = Some {| h_username := EmptyString; h_password := EmptyString;
            h_host := Some h; h_port := po; h_path := pa |}.
Proof.
  unfold serialized_host, serialized_path.
  intros [[NE Hs]%andb_true_iff Hb]%andb_true_iff Hh Hp [Hslash Hpa]%andb_true_iff Hst.
  unfold special_authority.
  assert (drop_while is_slash ("//" +:+ h +:+ port_text po +:+ pa)
          = (h +:+ port_text po) +:+ pa) as ->.
  { simpl. destruct h as [|c h]; [done|]. simpl in Hs |- *.
    apply andb_true_iff in Hs as [Hc _].
    apply host_safe_not_slash, negb_true_iff in Hc. rewrite Hc.
    by rewrite append_assoc. }
  rewrite break_app.
  2:{ rewrite all_app. rewrite (all_impl _ _ _ host_safe_not_slash Hs).
      exact (all_impl _ _ _ host_safe_not_slash (port_text_safe po)). }
  rewrite (break_at_separator is_slash pa).
  2:{ right. destruct pa as [|c r]; [done|]. exists c, r. split; [done|].
      by rewrite <- (startsWith_head _ _ _ _ Hslash). }
  cbn [fst snd]. rewrite append_empty_r.
  rewrite split_last_none.
  2:{ rewrite all_app. rewrite (all_impl _ _ _ host_safe_not_at Hs).
      exact (all_impl _ _ _ host_safe_not_at (port_text_safe po)). }
  assert (split_port false (h +:+ port_text po)
          = (h, match po with Some n => Some (decimal n) | None => None end)) as ->.
  { destruct po as [n|]; simpl.
    - by apply split_port_host_port.
    - rewrite append_empty_r. by apply split_port_host. }
  apply negb_true_iff in NE. rewrite NE, Hh. simpl.
  assert (parse_port sch match po with Some n => Some (decimal n) | None => None end
          = Some po) as ->.
  { destruct po as [n|]; [|done]. unfold parse_port.
    pose proof (decimal_nonempty n) as DN.
    destruct (decimal n) as [|c r] eqn:E; [done|]. rewrite <- E.
    rewrite decimal_value_decimal. simpl. destruct Hp as [B D].
    apply N.ltb_ge in B. rewrite B. by rewrite bool_decide_eq_false_2. }
  simpl. by rewrite Hst.
Qed.

(** Parsing a serialised normal URL gives the URL back. *)
Lemma parse_serialize u : normal u -> parse (serialize u) = Some u.
Proof.
  destruct u as [sch un pw ho po pa qu fr].
  intros (Ssp & Cr & (h & Eh & Hs & Hh) & Hp & Hpa & Hst & Hq & Hf). simpl in *.
  subst ho.
  assert (un = EmptyString /\ pw = EmptyString) as [-> ->].
  { unfold includes_credentials in Cr. simpl in Cr. by destruct un, pw. }
  destruct (special_scheme_facts sch Ssp) as (Vs & Ls & As).
  pose proof Hs as Hs'. unfold serialized_host in Hs'.
  apply andb_true_iff in Hs' as [[NE Hsafe]%andb_true_iff Hb].
  pose proof Hpa as Hpa'. unfold serialized_path in Hpa'.
  apply andb_true_iff in Hpa' as [_ Psafe].
  rewrite serialize_normal_form.
  set (authority := "//" +:+ h +:+ port_text po +:+ pa).
  (* the parts in front of the query and of the fragment *)
  assert (Aq : forall p,
             (forall c, host_safe c = true -> negb (p c) = true) ->
             (forall c, path_safe c = true -> negb (p c) = true) ->
             negb (p "/"%char) = true ->
             all (fun c => negb (p c)) (sch +:+ ":" +:+ authority) = true).
  { intros p Ph Pp Ps. unfold authority. rewrite !all_app.
    rewrite (all_impl _ _ _ Ph (all_impl _ _ _ scheme_safe_host_safe As)).
    rewrite (all_impl _ _ _ Ph Hsafe), (all_impl _ _ _ Ph (port_text_safe po)).
    rewrite (all_impl _ _ _ Pp Psafe). simpl.
    by rewrite !(Ph ":"%char eq_refl), Ps. }
  assert (Vq : all visible (query_text qu) = true).
  { destruct qu as [q|]; [|done]. exact (all_impl _ _ _ query_safe_visible Hq). }
  assert (Vf : all visible (fragment_text fr) = true).
  { destruct fr as [f|]; [|done]. exact (all_impl _ _ _ fragment_safe_visible Hf). }
  assert (Nq : all (fun c => negb (Ascii.eqb "#" c)) (query_text qu) = true).
  { destruct qu as [q|]; [|done]. exact (all_impl _ _ _ query_safe_not_hash Hq). }
  assert (E : sch +:+ ":" +:+ "//" +:+ h +:+ port_text po +:+ pa
                +:+ query_text qu +:+ fragment_text fr
              = ((sch +:+ ":" +:+ authority) +:+ query_text qu) +:+ fragment_text fr).
  { unfold authority. by rewrite !append_assoc. }
  rewrite E. clear E.
  unfold parse.
  rewrite preprocess_visible.
  2:{ rewrite all_app, Vf, andb_true_r. rewrite all_app, Vq, andb_true_r.
      apply (all_impl (fun c => negb (negb (visible c))) visible).
      - intros c. by rewrite negb_involutive.
      - apply (Aq (fun c => negb (visible c))).
        + intros c Hc. by rewrite negb_involutive, host_safe_visible.
        + intros c Hc. by rewrite negb_involutive, path_safe_visible.
        + reflexivity. }
  rewrite break_app.
  2:{ rewrite all_app, Nq, andb_true_r.
      exact (Aq _ host_safe_not_hash path_safe_not_hash eq_refl). }
  rewrite (break_at_separator _ (fragment_text fr)).
  2:{ destruct fr as [f|]; [right|by left]. by exists "#"%char, f. }
  cbn [fst snd]. rewrite append_empty_r.
  rewrite break_app
    by exact (Aq _ host_safe_not_question path_safe_not_question eq_refl).
  rewrite (break_at_separator _ (query_text qu)).
  2:{ destruct qu as [q|]; [right|by left]. by exists "?"%char, q. }
  cbn [fst snd]. rewrite append_empty_r.
  rewrite break_app by exact (all_impl _ _ _ scheme_safe_not_colon As).
  rewrite (break_at_separator _ (":" +:+ authority)).
  2:{ right. by exists ":"%char, authority. }
  cbn [fst snd]. rewrite append_empty_r.
  rewrite Vs, Ls. simpl.
  rewrite (bool_decide_eq_true_2 _ Ssp).
  unfold authority at 1.
  rewrite (special_authority_serialized sch h po pa Hs Hh Hp Hpa Hst). simpl.
  rewrite (special_is_special _ Ssp).
  f_equal. f_equal.
  - destruct qu as [q|]; [|done]. simpl.
    by rewrite (percent_encode_id _ _ Hq).
  - destruct fr as [f|]; [|done]. simpl.
    by rewrite (percent_encode_id _ _ Hf).
Qed.

End Roundtrip.

(** ** The query of a parsed URL *)

Section Query.
Context `{Platform}.

(** The pairs of [url.searchParams] are the pairs of the query component
    of the input, as the parser sees it after removing white space. *)
Lemma searchParams_parse s u :
  parse s = Some u ->
  searchParams u = URLSearchParams.parse (query_component (preprocess s)).
Proof.
  unfold parse, query_component, searchParams.
  destruct (break (Ascii.eqb "#") _) as [before_fragment fragment_part]. cbn [fst].
  destruct (break (Ascii.eqb "?") _) as [before_query query_part]. cbn [snd].
  destruct (break (Ascii.eqb ":") _) as [scheme_part rest].
  destruct (is_empty rest || negb (valid_scheme scheme_part)); [done|].
  destruct (if bool_decide _ then _ else _) as [hier|]; [|done]. simpl.
  intros [= <-]. simpl.
  destruct query_part as [|c q]; [done|]. simpl.
  destruct (is_special _).
  - by apply FormFacts.parse_special_query.
  - by apply FormFacts.parse_encoded; [apply keeps_escapes_query| | |].
Qed.

Lemma drop_while_end_cons p c s :
  p c = false -> drop_while_end p (String c s) = String c (drop_while_end p s).
Proof. intros E. simpl. rewrite E. by destruct (drop_while_end p s). Qed.

(** The scheme of a URL written with the prefix [http:]. *)
Lemma parse_http_scheme r u : parse ("http:" +:+ r) = Some u -> scheme u = "http".
Proof.
  unfold parse, preprocess, trim.
  change (drop_while is_c0_or_space ("http:" +:+ r)) with ("http:" +:+ r).
  change ("http:" +:+ r) with (String "h" (String "t" (String "t" (String "p" (String ":" r))))).
  rewrite !drop_while_end_cons by reflexivity.
  cbn [filter is_tab_or_newline]. simpl.
  destruct (break (Ascii.eqb "#") _) as [a fragment_part]. simpl.
  destruct (break (Ascii.eqb "?") _) as [b query_part]. simpl.
  destruct (special_authority _ b) as [hier|]; [|done]. simpl.
  by intros [= <-].
Qed.

End Query.

Lemma query_component_prefix prefix s :
  all (fun c => negb (Ascii.eqb "#" c)) prefix = true ->
  all (fun c => negb (Ascii.eqb "?" c)) prefix = true ->
  query_component (prefix +:+ s) = query_component s.
Proof.
  intros Nh Nq. unfold query_component.
  rewrite (break_app _ prefix s Nh). cbn [fst].
  by rewrite (break_app _ prefix _ Nq).
Qed.

Lemma preprocess_prefix c prefix s :
  all visible (String c prefix) = true ->
  no_stripped_whitespace s ->
  preprocess (String c prefix +:+ s) = String c prefix +:+ s.
Proof.
  intros V [F D]. unfold preprocess, trim.
  assert (drop_while is_c0_or_space (String c prefix +:+ s) = String c prefix +:+ s) as ->.
  { pose proof V as V'. simpl in V'. apply andb_true_iff in V' as [Hc _].
    unfold visible in Hc. apply negb_true_iff in Hc. simpl. by rewrite Hc. }
  rewrite (drop_while_end_app _ _ s (drop_while_end_all _ _ V) D).
  rewrite filter_app, F.
  by rewrite (filter_all _ _ (all_impl _ _ _ visible_not_newline V)).
Qed.

End URLFacts.

(** * Normalisation and the parameter extractor *)

Section Normalizer.
Context `{Platform}.

(** What the [Request] constructor has checked when it returns. *)
Lemma Request_new_returns input init r :
  Request.new input init = Return r ->
  exists u, URL.parse input = Some u
            /\ URL.includes_credentials u = false
            /\ Request.url r = URL.serialize u
            /\ Request.body r = Request.init_body init.
Proof.
  unfold Request.new.
  destruct (URL.parse input) as [u|]; [|done].
  destruct (URL.includes_credentials u) eqn:C; [done|].
  destruct (match Request.init_method init with Some _ => _ | None => _ end) as [m|]; [|done].
  simpl. destruct (Headers.fill [] _) as [h|]; [|done]. simpl.
  destruct (Request.init_body init) as [stream|].
  - destruct (_ || _); [done|]. destruct (Request.init_body_disturbed init); [done|].
    destruct (negb _); [done|].
    intros [= <-]. by exists u.
  - intros [= <-]. by exists u.
Qed.

Lemma Request_new_malformed input init :
  URL.parse input = None -> Request.new input init = Throw TypeError.
Proof. intros E. unfold Request.new. by rewrite E. Qed.

Lemma fill_appends h init h' :
  Headers.fill h init = Return h' ->
  h' = (h ++ ((fun kv => (kv.1, Text.trim Text.is_http_whitespace kv.2)) <$> init))%list.
Proof.
  revert h. induction init as [|[name value] rest IH]; intros h; simpl.
  - intros [= <-]. by rewrite app_nil_r.
  - unfold Headers.append. destruct (_ && _); [|done]. simpl.
    intros F. rewrite (IH _ F). by rewrite <- app_assoc.
Qed.

Lemma Request_new_result input init r :
  Request.new input init = Return r ->
  exists u,
    URL.parse input = Some u
    /\ URL.includes_credentials u = false
    /\ Request.url r = URL.serialize u
    /\ Request.method r
       = match Request.init_method init with
         | Some m => Request.normalize_method m
         | None => "GET"
         end
    /\ match Request.init_method init with
       | Some m => Headers.is_token m = true /\ Request.forbidden_method m = false
       | None => True
       end
    /\ Request.headers r
       = (fun kv => (kv.1, Text.trim Text.is_http_whitespace kv.2))
           <$> Request.init_headers init
    /\ Request.body r = Request.init_body init
    /\ Request.bodyUsed r = false
    /\ (Request.init_body init <> None ->
        Request.method r <> "GET" /\ Request.method r <> "HEAD").
Proof.
  unfold Request.new.
  destruct (URL.parse input) as [u|]; [|done].
  destruct (URL.includes_credentials u) eqn:C; [done|].
  assert (M : forall m,
             match Request.init_method init with
             | Some m =>
                 if Headers.is_token m && negb (Request.forbidden_method m)
                 then Return (Request.normalize_method m)
                 else Throw TypeError
             | None => Return "GET"
             end = Return m ->
             m = match Request.init_method init with
                 | Some m => Request.normalize_method m
                 | None => "GET"
                 end
             /\ match Request.init_method init with
                | Some m => Headers.is_token m = true /\ Request.forbidden_method m = false
                | None => True
                end).
  { intros m. destruct (Request.init_method init) as [m0|]; [|by intros [= <-]].
    destruct (Headers.is_token m0) eqn:T; [|done].
    destruct (Request.forbidden_method m0) eqn:F; [done|]. by intros [= <-]. }
  destruct (match Request.init_method init with Some _ => _ | None => _ end) as [m|];
    [|done].
  destruct (M m eq_refl) as [Em Hm]. clear M. simpl.
  destruct (Headers.fill [] _) as [h|] eqn:Fl; [|done]. simpl.
  apply fill_appends in Fl. simpl in Fl.
  destruct (Request.init_body init) as [stream|].
  - destruct (String.eqb_spec m "GET") as [->|NG]; [done|].
    destruct (String.eqb_spec m "HEAD") as [->|NH]; [done|]. simpl.
    destruct (Request.init_body_disturbed init); [done|].
    destruct (negb _); [done|].
    intros [= <-]. exists u. simpl. repeat split; try done; by rewrite <- Em.
  - intros [= <-]. exists u. simpl. repeat split; try done.
Qed.

Lemma fill_throws h init e : Headers.fill h init = Throw e -> e = TypeError.
Proof.
  revert h. induction init as [|[name value] rest IH]; intros h; simpl; [done|].
  unfold Headers.append. destruct (_ && _); simpl; [apply IH|by intros [= <-]].
Qed.

Lemma Request_new_throws input init e : Request.new input init = Throw e -> e = TypeError.
Proof.
  unfold Request.new.
  destruct (URL.parse input) as [u|]; [|by intros [= <-]].
  destruct (URL.includes_credentials u); [by intros [= <-]|].
  destruct (Request.init_method init) as [m|]; simpl.
  - destruct (_ && _); simpl; [|by intros [= <-]].
    destruct (Headers.fill [] _) as [h|e'] eqn:F; simpl;
      [|intros [= <-]; by apply fill_throws in F].
    destruct (Request.init_body init); [|done].
    destruct (_ || _); [by intros [= <-]|].
    destruct (Request.init_body_disturbed init); [by intros [= <-]|].
    destruct (negb _); [by intros [= <-]|done].
  - destruct (Headers.fill [] _) as [h|e'] eqn:F; simpl;
      [|intros [= <-]; by apply fill_throws in F].
    destruct (Request.init_body init); simpl; [by intros [= <-]|done].
Qed.

Lemma toWebRequest_throws req e : toWebRequest req = Throw e -> e = TypeError.
Proof. destruct req; simpl; [apply Request_new_throws|done]. Qed.

Lemma requestBody_other nodeReq :
  IncomingMessage.method nodeReq <> Some "GET" ->
  IncomingMessage.method nodeReq <> Some "HEAD" ->
  requestBody nodeReq = Some (IncomingMessage.stream nodeReq).
Proof. intros G Hd. unfold requestBody. by rewrite !bool_decide_eq_false_2. Qed.

(** A stream that was read from before is not accepted as body. *)
Lemma Request_new_undisturbed input init r :
  Request.new input init = Return r ->
  Request.init_body init <> None ->
  Request.init_body_disturbed init = false.
Proof.
  unfold Request.new.
  destruct (URL.parse input) as [u|]; [|done].
  destruct (URL.includes_credentials u); [done|].
  destruct (match Request.init_method init with Some _ => _ | None => _ end) as [m|]; [|done].
  simpl. destruct (Headers.fill [] _) as [h|]; [|done]. simpl.
  destruct (Request.init_body init) as [stream|]; [|done].
  destruct (_ || _); [done|]. by destruct (Request.init_body_disturbed init).
Qed.

(** What the [Request] constructor accepts. *)
Lemma Request_new_accepts input init u m h :
  URL.parse input = Some u ->
  URL.includes_credentials u = false ->
  Request.init_method init = Some m ->
  Headers.is_token m = true ->
  Request.forbidden_method m = false ->
  Headers.fill [] (Request.init_headers init) = Return h ->
  (Request.init_body init <> None ->
   Request.normalize_method m <> "GET" /\ Request.normalize_method m <> "HEAD"
   /\ Request.init_body_disturbed init = false
   /\ Request.init_duplex_half init = true) ->
  Request.new input init
  = Return {| Request.method := Request.normalize_method m;
              Request.url := URL.serialize u;
              Request.headers := h;
              Request.body := Request.init_body init;
              Request.bodyUsed := false |}.
Proof.
  intros P C M T F Fl B. unfold Request.new. rewrite P, C, M, T, F. simpl.
  rewrite Fl. simpl.
  destruct (Request.init_body init) as [stream|]; [|done].
  destruct B as (G & Hd & D & X); [done|].
  destruct (String.eqb_spec (Request.normalize_method m) "GET") as [E|_]; [done|].
  destruct (String.eqb_spec (Request.normalize_method m) "HEAD") as [E|_]; [done|].
  simpl. by rewrite D, X.
Qed.

(** The constructor's method is [GET] or [HEAD] exactly when the given
    method is, in some letter case. *)
Lemma normalize_method_GET_HEAD m :
  Text.uppercase m <> "GET" -> Text.uppercase m <> "HEAD" ->
  Request.normalize_method m <> "GET" /\ Request.normalize_method m <> "HEAD".
Proof.
  intros G Hd. unfold Request.normalize_method.
  destruct (bool_decide _); [done|].
  split; intros ->; [by apply G|by apply Hd].
Qed.

Lemma getParams_after_normalization req webReq :
  toWebRequest req = Return webReq ->
  getParams req
  = match URL.parse (Request.url webReq) with
    | None => Throw TypeError
    | Some u => Return (Object.fromEntries (URL.searchParams u))
    end.
Proof. intros E. unfold getParams. by rewrite E. Qed.

(** For a legacy request whose completed URL has a scheme of the HTTP
    family, the parameters are the pairs of the query component of that
    URL. *)
Lemma getParams_legacy nodeReq webReq u :
  toWebRequest (Legacy nodeReq) = Return webReq ->
  URL.parse (fullUrl (IncomingMessage.url nodeReq)) = Some u ->
  is_Some (URL.default_port (URL.scheme u)) ->
  Request.url webReq = URL.serialize u
  /\ getParams (Legacy nodeReq)
     = Return (Object.fromEntries
                 (URLSearchParams.parse
                    (query_component (URL.preprocess (fullUrl (IncomingMessage.url nodeReq)))))).
Proof.
  intros N P S. pose proof N as N'. simpl in N'.
  apply Request_new_returns in N' as (u' & P' & C & U & _).
  rewrite P in P'. injection P' as <-.
  split; [done|].
  rewrite (getParams_after_normalization _ _ N), U.
  rewrite (URLFacts.parse_serialize u (URLFacts.parse_normal _ u P S C)).
  by rewrite (URLFacts.searchParams_parse _ u P).
Qed.

(** C2 (amended): a standard [Request] is returned as it is, without
    error.  For a legacy request the [Request] constructor parses the
    completed URL: when that URL is malformed, the normalisation itself
    throws a [TypeError], and so does [getParams], whose first step it is;
    [getBody] rejects with it. *)
Theorem toWebRequest_malformed_url :
  (forall r, toWebRequest (Standard r) = Return r)
  /\ (forall nodeReq,
        URL.parse (fullUrl (IncomingMessage.url nodeReq)) = None ->
        toWebRequest (Legacy nodeReq) = Throw TypeError
        /\ getParams (Legacy nodeReq) = Throw TypeError
        /\ forall options,
             getBody (Legacy nodeReq) options
             = {| outcome := Throw TypeError; onError_calls := [] |}).
Proof.
  split; [done|]. intros nodeReq P.
  assert (toWebRequest (Legacy nodeReq) = Throw TypeError) as N
    by (by apply Request_new_malformed).
  split; [done|]. split.
  - unfold getParams. by rewrite N.
  - intros options. by apply getBody_normalization_throws.
Qed.

(** C3 (amended): take a legacy request whose method is a string that
    the [Request] constructor accepts (a token that is not forbidden) and
    whose completed URL and headers it accepts.  If the method is the
    string [GET] or the string [HEAD], the normalisation produces a
    canonical request without body, whatever the legacy stream holds and
    whether or not it was read.  For every other method the legacy stream
    is handed to the constructor: the normalisation produces a canonical
    request that carries this stream when the method is not [GET] or
    [HEAD] in another letter case and the stream was not read before, and
    throws a [TypeError] otherwise. *)
Theorem toWebRequest_attaches_body nodeReq m u h :
  IncomingMessage.method nodeReq = Some m ->
  Headers.is_token m = true ->
  Request.forbidden_method m = false ->
  URL.parse (fullUrl (IncomingMessage.url nodeReq)) = Some u ->
  URL.includes_credentials u = false ->
  Headers.fill [] (Request.init_headers (requestInit nodeReq)) = Return h ->
  (m = "GET" \/ m = "HEAD" ->
     exists webReq, toWebRequest (Legacy nodeReq) = Return webReq
                    /\ Request.body webReq = None)
  /\ (m <> "GET" -> m <> "HEAD" ->
      Request.init_body (requestInit nodeReq) = Some (IncomingMessage.stream nodeReq)
      /\ (Text.uppercase m <> "GET" -> Text.uppercase m <> "HEAD" ->
          IncomingMessage.disturbed nodeReq = false ->
          exists webReq, toWebRequest (Legacy nodeReq) = Return webReq
                         /\ Request.body webReq = Some (IncomingMessage.stream nodeReq))
      /\ (Text.uppercase m = "GET" \/ Text.uppercase m = "HEAD"
          \/ IncomingMessage.disturbed nodeReq = true ->
          toWebRequest (Legacy nodeReq) = Throw TypeError)).
Proof.
  intros M T F P C Fl. split.
  - intros GH.
    assert (requestBody nodeReq = None) as E.
    { unfold requestBody. rewrite M. destruct GH as [-> | ->]; reflexivity. }
    eexists. split.
    + simpl. apply (Request_new_accepts _ (requestInit nodeReq) u m h P C M T F Fl). simpl. by rewrite E.
    + simpl. exact E.
  - intros G Hd.
    assert (requestBody nodeReq = Some (IncomingMessage.stream nodeReq)) as E.
    { apply requestBody_other; rewrite M; congruence. }
    split; [exact E|]. split.
    + intros UG UH D. destruct (normalize_method_GET_HEAD m UG UH) as [NG NH].
      eexists. split.
      * simpl. apply (Request_new_accepts _ (requestInit nodeReq) u m h P C M T F Fl). by simpl.
      * simpl. exact E.
    + intros R. destruct (toWebRequest (Legacy nodeReq)) as [w|e] eqn:N.
      * exfalso. simpl in N.
        assert (Request.init_body (requestInit nodeReq) <> None) as B
          by (simpl; by rewrite E).
        pose proof (Request_new_undisturbed _ _ _ N B) as D. simpl in D.
        apply Request_new_result in N as (u' & _ & _ & _ & Mw & _ & _ & _ & _ & I).
        destruct (I B) as [WG WH]. simpl in Mw. rewrite M in Mw.
        unfold Request.normalize_method in Mw.
        destruct R as [U|[U|U]]; [rewrite U in Mw; simpl in Mw; congruence..|congruence].
      * by rewrite (toWebRequest_throws _ _ N).
Qed.

(** C4 (amended): for a legacy request whose url does not start with
    [http], holds no white space that the URL parser strips, and is
    accepted by the [Request] constructor once [http://localhost] is put
    in front of it, the canonical URL is the serialisation of that
    completed URL, and [getParams] yields the pairs of the query component
    of the original url. *)
Theorem getParams_relative_url nodeReq path webReq :
  IncomingMessage.url nodeReq = Some path ->
  Text.startsWith path "http" = false ->
  no_stripped_whitespace path ->
  toWebRequest (Legacy nodeReq) = Return webReq ->
  (exists u, URL.parse ("http://localhost" +:+ path) = Some u
             /\ Request.url webReq = URL.serialize u)
  /\ getParams (Legacy nodeReq)
     = Return (Object.fromEntries (URLSearchParams.parse (query_component path))).
Proof.
  intros U S W N.
  assert (fullUrl (IncomingMessage.url nodeReq) = "http://localhost" +:+ path) as F
    by (unfold fullUrl; by rewrite U, S).
  pose proof N as N'. simpl in N'.
  apply Request_new_returns in N' as (u & P & _ & _ & _).
  assert (is_Some (URL.default_port (URL.scheme u))) as Sp.
  { rewrite F in P.
    rewrite (URLFacts.parse_http_scheme ("//localhost" +:+ path) u P). by eexists. }
  destruct (getParams_legacy _ _ _ N P Sp) as [Eu G].
  split; [exists u; by rewrite <- F|].
  rewrite G, F.
  rewrite (URLFacts.preprocess_prefix "h" "ttp://localhost" path eq_refl W).
  by rewrite (URLFacts.query_component_prefix "http://localhost" path eq_refl eq_refl).
Qed.

Lemma fromEntries_lookup_from (m : gmap string string) entries k :
  foldl (fun o kv => <[kv.1 := kv.2]> o) m entries !! k
  = match last_value k entries with
    | Some v => Some v
    | None => m !! k
    end.
Proof.
  revert m. induction entries as [|[k' v] rest IH]; intros m; simpl; [done|].
  rewrite IH. destruct (last_value k rest); [done|].
  destruct (String.eqb_spec k k') as [->|Ne].
  - by rewrite lookup_insert_eq.
  - by rewrite lookup_insert_ne.
Qed.

Lemma fromEntries_lookup entries k :
  Object.fromEntries entries !! k = last_value k entries.
Proof.
  unfold Object.fromEntries. rewrite fromEntries_lookup_from.
  by destruct (last_value k entries).
Qed.

(** C8: the result of [getParams] maps every key of the URL's query to
    the value of its last occurrence, and a request for
    [/x?a=1&a=2&b=hello] yields [{a: "2", b: "hello"}]. *)
Theorem getParams_last_value_wins :
  (forall req params,
     getParams req = Return params ->
     exists webReq u,
       toWebRequest req = Return webReq
       /\ URL.parse (Request.url webReq) = Some u
       /\ forall k, params !! k = last_value k (URL.searchParams u))
  /\ getParams (Legacy (node "GET" "/x?a=1&a=2&b=hello" [] EmptyString))
     = Return {[ "a" := "2"; "b" := "hello" ]}.
Proof.
  split.
  - intros req params G.
    destruct (toWebRequest req) as [webReq|] eqn:N; [|unfold getParams in G; by rewrite N in G].
    rewrite (getParams_after_normalization _ _ N) in G.
    destruct (URL.parse (Request.url webReq)) as [u|] eqn:P; [|done].
    injection G as <-. exists webReq, u.
    split; [done|]. split; [done|]. intros k. apply fromEntries_lookup.
  - destruct (toWebRequest (Legacy (node "GET" "/x?a=1&a=2&b=hello" [] EmptyString)))
      as [webReq|e] eqn:N; [|vm_compute in N; discriminate].
    pose proof N as N'. simpl in N'.
    apply Request_new_returns in N' as (u & P & _ & _ & _).
    assert (is_Some (URL.default_port (URL.scheme u))) as Sp.
    { rewrite (URLFacts.parse_http_scheme _ u P). by eexists. }
    destruct (getParams_legacy _ _ _ N P Sp) as [_ ->].
    f_equal.
Qed.

(** Why the white space matters in C4: a space at the end of the url is
    removed by the URL parser, but belongs to the query component of the
    url as written. *)
Lemma getParams_strips_trailing_space :
  getParams (Legacy (node "GET" "/x?a=1 " [] EmptyString)) = Return {[ "a" := "1" ]}
  /\ Object.fromEntries (URLSearchParams.parse (query_component "/x?a=1 "))
     = {[ "a" := "1 " ]}.
Proof.
  split; [|reflexivity].
  destruct (toWebRequest (Legacy (node "GET" "/x?a=1 " [] EmptyString)))
    as [webReq|e] eqn:N; [|vm_compute in N; discriminate].
  pose proof N as N'. simpl in N'.
  apply Request_new_returns in N' as (u & P & _ & _ & _).
  assert (is_Some (URL.default_port (URL.scheme u))) as Sp.
  { rewrite (URLFacts.parse_http_scheme _ u P). by eexists. }
  destruct (getParams_legacy _ _ _ N P Sp) as [_ ->].
  f_equal.
Qed.

End Normalizer.

(** * The statements at concrete requests

    The requests below have the host [localhost] and the root path, or a
    url that fails before any host is parsed: no table of the platform is
    consulted, and the evaluations hold on every platform. *)

Section Anywhere.
Context `{Platform}.

Lemma port_out_of_range_rejects :
  getBody (Legacy (node "POST" "http://localhost:99999/" json_header json_a1)) no_options
  = {| outcome := Throw TypeError; onError_calls := [] |}.
Proof. reflexivity. Qed.

Lemma empty_host_throws :
  toWebRequest (Legacy (node "GET" "http://" [] EmptyString)) = Throw TypeError.
Proof. reflexivity. Qed.

Lemma completed_port_throws :
  getParams (Legacy (node "GET" ":x?a=1" [] EmptyString)) = Throw TypeError.
Proof. reflexivity. Qed.

Lemma upper_case_type_is_raw :
  outcome (getBody (Legacy (node "POST" "/" [("content-type", "Application/JSON")] json_a1))
             no_options)
  = Return (raw_object json_a1).
Proof. reflexivity. Qed.

Lemma json_number_is_returned :
  outcome (getBody (Legacy (node "POST" "/" json_header "1")) no_options)
  = Return (JNumber 1 0).
Proof. reflexivity. Qed.

Lemma throwing_handler_rejects :
  getBody malformed_json observe_and_throw
  = {| outcome := Throw (UserError "handler"); onError_calls := [SyntaxError] |}.
Proof. reflexivity. Qed.

End Anywhere.

(** The same on [plain_platform], as closed statements. *)

Section Examples.
#[local] Existing Instance plain_platform.

(** C1, the claim as stated fails: the normalisation stands before the
    [try]; a legacy request whose url has the port 99999 makes the
    [Request] constructor throw, and [getBody] rejects. *)
Lemma getBody_rejects_before_try :
  getBody (Legacy (node "POST" "http://localhost:99999/" json_header json_a1)) no_options
  = {| outcome := Throw TypeError; onError_calls := [] |}.
Proof. exact port_out_of_range_rejects. Qed.

Lemma getBody_contains_errors_witness :
  outcome (getBody malformed_json observe) = Return empty_object
  /\ onError_calls (getBody malformed_json observe) = [SyntaxError].
Proof.
  destruct (getBody_contains_errors malformed_json observe _ eq_refl) as (_ & C & _).
  - intros handler err [= <-]. reflexivity.
  - exact (C SyntaxError eq_refl).
Defined.

(** C2, the claim as stated fails: the url [http://] has no host, and the
    normalisation itself throws. *)
Lemma toWebRequest_throws_on_malformed_url :
  toWebRequest (Legacy (node "GET" "http://" [] EmptyString)) = Throw TypeError.
Proof. exact empty_host_throws. Qed.

Lemma toWebRequest_malformed_url_witness :
  getParams (Legacy (node "GET" "http://" [] EmptyString)) = Throw TypeError.
Proof.
  exact (proj1 (proj2 (proj2 toWebRequest_malformed_url
                         (node "GET" "http://" [] EmptyString) eq_refl))).
Defined.

(** C3, the claim as stated fails: no canonical request is produced for
    a [HEAD] request whose url is [http://:80/], nor for a [get] request
    or a [POST] request that was read before, although the url [/x?a=1]
    is well formed. *)
Lemma toWebRequest_without_request :
  toWebRequest (Legacy (node "HEAD" "http://:80/" [] "ignored")) = Throw TypeError
  /\ toWebRequest (Legacy (node "get" "/x?a=1" [] EmptyString)) = Throw TypeError
  /\ toWebRequest (Legacy consumed_message) = Throw TypeError.
Proof. repeat split. Qed.

Lemma toWebRequest_attaches_body_witness :
  (exists webReq, toWebRequest (Legacy (node "GET" "/" [] "ignored")) = Return webReq
                  /\ Request.body webReq = None)
  /\ (exists webReq, toWebRequest (Legacy (node "POST" "/" [] "kept")) = Return webReq
                     /\ Request.body webReq = Some (Return (list_byte_of_string "kept")))
  /\ toWebRequest (Legacy (node "head" "/" [] "kept")) = Throw TypeError.
Proof.
  split; [|split].
  - exact (proj1 (toWebRequest_attaches_body (node "GET" "/" [] "ignored") "GET" _ _
                    eq_refl eq_refl eq_refl eq_refl eq_refl eq_refl)
             (or_introl eq_refl)).
  - refine (proj1 (proj2 (proj2 (toWebRequest_attaches_body (node "POST" "/" [] "kept") "POST"
                                   _ _ eq_refl eq_refl eq_refl eq_refl eq_refl eq_refl) _ _))
              _ _ eq_refl); discriminate.
  - refine (proj2 (proj2 (proj2 (toWebRequest_attaches_body (node "head" "/" [] "kept") "head"
                                   _ _ eq_refl eq_refl eq_refl eq_refl eq_refl eq_refl) _ _))
              (or_intror (or_introl eq_refl))); discriminate.
Defined.

(** C4, the claim as stated fails: [:x?a=1] does not start with [http],
    its query component is [a=1], but [http://localhost:x?a=1] has an
    invalid port and [getParams] throws. *)
Lemma getParams_throws_on_relative_url :
  Text.startsWith ":x?a=1" "http" = false
  /\ query_component ":x?a=1" = "a=1"
  /\ getParams (Legacy (node "GET" ":x?a=1" [] EmptyString)) = Throw TypeError.
Proof. split; [reflexivity|]. split; [reflexivity|]. exact completed_port_throws. Qed.

Lemma getParams_relative_url_witness :
  getParams (Legacy (node "GET" "/search?q=a+b&q=c%21" [] EmptyString))
  = Return (Object.fromEntries (URLSearchParams.parse "q=a+b&q=c%21")).
Proof.
  refine (proj2 (getParams_relative_url
                   (node "GET" "/search?q=a+b&q=c%21" [] EmptyString)
                   "/search?q=a+b&q=c%21" _ eq_refl eq_refl (conj eq_refl eq_refl) eq_refl)).
Defined.

(** C5, the claim as stated fails: the content type [Application/JSON]
    differs from [application/json] only in case; matched without regard
    to case it selects the JSON decoder, but [getBody] returns the raw
    text. *)
Lemma getBody_content_type_case :
  outcome (getBody (Legacy (node "POST" "/" [("content-type", "Application/JSON")] json_a1))
             no_options)
  = Return (raw_object json_a1)
  /\ dispatch_ignoring_case "Application/JSON" json_a1
     = Return (JObject {[ "a" := JNumber 1 0 ]}).
Proof. split; [exact upper_case_type_is_raw|reflexivity]. Qed.

Lemma getBody_dispatch_case_sensitive_witness :
  outcome (getBody (Legacy (node "POST" "/" [("content-type", "text/plain; charset=utf-8")] "hi"))
             no_options)
  = Return (text_object "hi").
Proof.
  refine (proj1 (proj2 (proj2
            (getBody_dispatch_case_sensitive
               (Legacy (node "POST" "/" [("content-type", "text/plain; charset=utf-8")] "hi"))
               no_options _ _ TextDecoder.UTF8 eq_refl eq_refl eq_refl eq_refl _))) eq_refl).
  discriminate.
Defined.

Lemma effectiveContentType_precedence_witness :
  effectiveContentType plain_text_request fallback_json = "text/plain".
Proof.
  exact (proj1 (effectiveContentType_precedence
                  (Standard plain_text_request) fallback_json plain_text_request eq_refl)).
Defined.

Lemma getBody_empty_body_witness :
  getBody (Legacy (node "POST" "/" json_header EmptyString)) raw_only
  = {| outcome := Return empty_object; onError_calls := [] |}.
Proof.
  exact (getBody_empty_body (Legacy (node "POST" "/" json_header EmptyString)) raw_only
           _ [] TextDecoder.UTF8 eq_refl eq_refl eq_refl eq_refl).
Defined.

Lemma getParams_last_value_wins_witness :
  exists webReq u,
    toWebRequest (Legacy (node "GET" "/x?a=1&a=2&b=hello" [] EmptyString)) = Return webReq
    /\ URL.parse (Request.url webReq) = Some u
    /\ forall k, ({[ "a" := "2"; "b" := "hello" ]} : gmap string string) !! k
                 = last_value k (URL.searchParams u).
Proof.
  exact (proj1 getParams_last_value_wins
           (Legacy (node "GET" "/x?a=1&a=2&b=hello" [] EmptyString)) _ eq_refl).
Defined.

(** C9, the claim as stated fails: the JSON text [1] is a number, and
    [getBody] resolves to it, which is no mapping. *)
Lemma getBody_resolves_to_number :
  outcome (getBody (Legacy (node "POST" "/" json_header "1")) no_options)
  = Return (JNumber 1 0)
  /\ is_object (JNumber 1 0) = false.
Proof. split; [exact json_number_is_returned|reflexivity]. Qed.

Lemma getBody_result_shapes_witness :
  exists webReq,
    toWebRequest (Legacy (node "POST" "/" json_header json_a1)) = Return webReq
    /\ JSON.parse json_a1 = Return (JObject {[ "a" := JNumber 1 0 ]}).
Proof.
  destruct (getBody_result_shapes (Legacy (node "POST" "/" json_header json_a1)) no_options
              (JObject {[ "a" := JNumber 1 0 ]}) eq_refl) as (webReq & N & _).
  exists webReq. split; [exact N|reflexivity].
Defined.

(** C10, the claim as stated fails: a handler that throws is called with
    the caught error, and the call does not resolve to the empty object
    but rejects with the handler's error. *)
Lemma getBody_handler_throws :
  getBody malformed_json observe_and_throw
  = {| outcome := Throw (UserError "handler"); onError_calls := [SyntaxError] |}.
Proof. exact throwing_handler_rejects. Qed.

Lemma getBody_onError_calls_witness :
  length (onError_calls (getBody malformed_json observe)) <= 1
  /\ getBody (Legacy (node "POST" "/" json_header json_a1)) observe
     = {| outcome := Return (JObject {[ "a" := JNumber 1 0 ]}); onError_calls := [] |}.
Proof.
  split.
  - exact (proj1 (getBody_onError_calls malformed_json observe)).
  - exact (proj2 (proj2 (getBody_onError_calls
                           (Legacy (node "POST" "/" json_header json_a1)) observe))
             _ _ eq_refl eq_refl).
Defined.

End Examples.

(** * Further properties of the program *)

Module MoreTextFacts.
Import Text TextFacts.

Lemma all_filter p q s : all p s = true -> all p (filter q s) = true.
Proof.
  induction s as [|c s IH]; simpl; [done|].
  intros [Hc Hs]%andb_true_iff. destruct (q c); simpl; [rewrite Hc|]; by apply IH.
Qed.

Lemma all_drop_while p q s : all p s = true -> all p (drop_while q s) = true.
Proof.
  induction s as [|c s IH]; simpl; [done|].
  intros [Hc Hs]%andb_true_iff. destruct (q c); [by apply IH|]. simpl. by rewrite Hc.
Qed.

Lemma all_drop_while_end p q s : all p s = true -> all p (drop_while_end q s) = true.
Proof.
  induction s as [|c s IH]; simpl; [done|].
  intros [Hc Hs]%andb_true_iff. specialize (IH Hs).
  destruct (drop_while_end q s) as [|d r].
  - destruct (q c); simpl; [done|by rewrite Hc].
  - change (all p (String c (String d r)) = true). simpl in *. by rewrite Hc.
Qed.

Lemma all_break p q s : all p s = true -> all p (break q s).1 = true.
Proof.
  induction s as [|c s IH]; simpl; [done|].
  intros [Hc Hs]%andb_true_iff. destruct (q c); [done|].
  specialize (IH Hs). destruct (break q s). simpl in *. by rewrite Hc.
Qed.

End MoreTextFacts.

Section Further.
Context `{Platform}.

(** ** The completed URL *)

Lemma completed_url_http url :
  completed_url url -> exists r, fullUrl url = "http:" +:+ r.
Proof.
  destruct url as [u|]; simpl.
  - intros ->. by exists ("//localhost" +:+ u).
  - intros _. by exists ("//localhost" +:+ "undefined").
Qed.

(** After a successful normalisation of a legacy request whose url was
    completed, the canonical URL parses again. *)
Lemma getParams_completed nodeReq webReq :
  completed_url (IncomingMessage.url nodeReq) ->
  toWebRequest (Legacy nodeReq) = Return webReq ->
  getParams (Legacy nodeReq)
  = Return (Object.fromEntries
              (URLSearchParams.parse
                 (query_component (URL.preprocess (fullUrl (IncomingMessage.url nodeReq)))))).
Proof.
  intros C N. pose proof N as N'. simpl in N'.
  apply Request_new_returns in N' as (u & P & _ & _ & _).
  destruct (completed_url_http _ C) as [r E].
  assert (is_Some (URL.default_port (URL.scheme u))) as Sp.
  { rewrite E in P. rewrite (URLFacts.parse_http_scheme r u P). by eexists. }
  by destruct (getParams_legacy _ _ _ N P Sp) as [_ ->].
Qed.

(** ** The facade *)

(** X1: [bodyData] gives what [getParams] and [getBody] give on the same
    request: it rejects with the error of [getParams] without reading the
    body or calling [onError], and otherwise pairs the parameters with the
    outcome of [getBody], [onError] being called as [getBody] calls it. *)
Theorem bodyData_composes req options :
  bodyData req options
  = match getParams req with
    | Throw e => {| outcome := Throw e; onError_calls := [] |}
    | Return params =>
        {| outcome := body ← outcome (getBody req options); Return (params, body);
           onError_calls := onError_calls (getBody req options) |}
    end.
Proof.
  unfold bodyData. destruct (toWebRequest req) as [w|e] eqn:N.
  - rewrite (getParams_after_normalization req w N).
    rewrite (getParams_after_normalization (Standard w) w eq_refl).
    destruct (URL.parse _); [|done].
    by rewrite (getBody_after_normalization req options w N),
               (getBody_after_normalization (Standard w) options w eq_refl).
  - unfold getParams. by rewrite N.
Qed.

(** X2: a body that cannot be read or parsed does not cost the
    parameters: when [getParams] returns and the [try] block of [getBody]
    throws, [bodyData] resolves to the parameters with the empty object as
    body (the handler, if any, being called once and returning). *)
Theorem bodyData_keeps_params req options webReq params err :
  toWebRequest req = Return webReq ->
  getParams req = Return params ->
  getBody_try webReq options = Throw err ->
  (forall handler, onError options = Some handler -> handler err = Return tt) ->
  bodyData req options
  = {| outcome := Return (params, empty_object);
       onError_calls := match onError options with
                        | Some _ => [err]
                        | None => []
                        end |}.
Proof.
  intros N G T Hh. unfold bodyData. rewrite N.
  rewrite (getParams_after_normalization (Standard webReq) webReq eq_refl).
  rewrite (getParams_after_normalization req webReq N) in G.
  destruct (URL.parse _); [|done]. injection G as ->.
  rewrite (getBody_after_normalization (Standard webReq) options webReq eq_refl), T.
  destruct (onError options) as [handler|] eqn:O; [|done].
  by rewrite (Hh handler eq_refl).
Qed.

(** ** The parameter extractor *)

(** X3: for a legacy request whose url is completed with
    [http://localhost] (it is undefined or does not start with [http]),
    [getParams] fails exactly when the normalisation fails, with the same
    error: the canonical URL of a normalised request always parses. *)
Theorem getParams_fails_with_normalization nodeReq :
  completed_url (IncomingMessage.url nodeReq) ->
  (forall e, getParams (Legacy nodeReq) = Throw e <-> toWebRequest (Legacy nodeReq) = Throw e)
  /\ (forall webReq, toWebRequest (Legacy nodeReq) = Return webReq ->
        exists params, getParams (Legacy nodeReq) = Return params).
Proof.
  intros C. split.
  - intros e. destruct (toWebRequest (Legacy nodeReq)) as [w|e'] eqn:N.
    + rewrite (getParams_completed _ _ C N). split; discriminate.
    + unfold getParams. rewrite N. simpl. split; by intros [= ->].
  - intros w N. rewrite (getParams_completed _ _ C N). by eexists.
Qed.

(** X4: [getParams] does not read the body: the parameters of a legacy
    request do not depend on what its stream delivers.  They depend on
    the stream only through its state: when it was read from before and
    the method is not the string [GET] or [HEAD], the [Request]
    constructor rejects it and [getParams] throws a [TypeError]. *)
Theorem getParams_ignores_stream_content nodeReq :
  (forall stream,
     getParams (Legacy (with_stream nodeReq stream)) = getParams (Legacy nodeReq))
  /\ (IncomingMessage.disturbed nodeReq = true ->
      IncomingMessage.method nodeReq <> Some "GET" ->
      IncomingMessage.method nodeReq <> Some "HEAD" ->
      getParams (Legacy nodeReq) = Throw TypeError).
Proof.
  split.
  - intros stream.
    unfold getParams, toWebRequest, Request.new, requestInit, requestBody. simpl.
    destruct (URL.parse _) as [u|]; [|done].
    destruct (URL.includes_credentials u); [done|].
    destruct (match IncomingMessage.method nodeReq with Some _ => _ | None => _ end) as [m|];
      [|done].
    simpl. destruct (Headers.fill [] _) as [h|]; [|done]. simpl.
    destruct (_ || _); [done|]. simpl.
    destruct (_ || _); [done|]. by destruct (IncomingMessage.disturbed nodeReq).
  - intros D G Hd. unfold getParams.
    destruct (toWebRequest (Legacy nodeReq)) as [w|e] eqn:N.
    + exfalso. simpl in N. apply Request_new_undisturbed in N.
      * simpl in N. congruence.
      * simpl. by rewrite (requestBody_other _ G Hd).
    + by rewrite (toWebRequest_throws _ _ N).
Qed.

Lemma query_component_without_question s :
  Text.all (fun c => negb (Ascii.eqb "?" c)) s = true -> query_component s = EmptyString.
Proof.
  intros A. unfold query_component.
  by rewrite (TextFacts.break_all _ _ (MoreTextFacts.all_break _ (Ascii.eqb "#") s A)).
Qed.

(** X5: a url without question mark has no parameters: for a legacy
    request whose url is completed and holds no [?], [getParams] returns
    the empty mapping once the normalisation has returned. *)
Theorem getParams_without_query nodeReq path webReq :
  IncomingMessage.url nodeReq = Some path ->
  Text.startsWith path "http" = false ->
  Text.all (fun c => negb (Ascii.eqb "?" c)) path = true ->
  toWebRequest (Legacy nodeReq) = Return webReq ->
  getParams (Legacy nodeReq) = Return ∅.
Proof.
  intros U S A N.
  assert (completed_url (IncomingMessage.url nodeReq)) as C by (by rewrite U).
  rewrite (getParams_completed _ _ C N).
  rewrite query_component_without_question; [done|].
  unfold URL.preprocess, Text.trim.
  apply MoreTextFacts.all_filter, MoreTextFacts.all_drop_while_end,
        MoreTextFacts.all_drop_while.
  unfold fullUrl. rewrite U, S.
  by rewrite TextFacts.all_app, A.
Qed.

(** ** The normaliser *)

(** X6: the comparison with ['GET'] and ['HEAD'] is exact, the [Request]
    constructor's is not: a legacy request whose method is undefined, or
    is [GET] or [HEAD] in another letter case (['get'], ['Head']), gets
    the stream as body, and the normalisation throws a [TypeError]. *)
Theorem toWebRequest_method_variants nodeReq :
  (IncomingMessage.method nodeReq = None ->
     toWebRequest (Legacy nodeReq) = Throw TypeError)
  /\ (forall m,
        IncomingMessage.method nodeReq = Some m ->
        m <> "GET" -> m <> "HEAD" ->
        Text.uppercase m = "GET" \/ Text.uppercase m = "HEAD" ->
        toWebRequest (Legacy nodeReq) = Throw TypeError).
Proof.
  assert (B : forall w, toWebRequest (Legacy nodeReq) = Return w ->
                IncomingMessage.method nodeReq <> Some "GET" ->
                IncomingMessage.method nodeReq <> Some "HEAD" ->
                Request.method w
                = match IncomingMessage.method nodeReq with
                  | Some m => Request.normalize_method m
                  | None => "GET"
                  end
                /\ Request.method w <> "GET" /\ Request.method w <> "HEAD").
  { intros w N G Hd. simpl in N.
    apply Request_new_result in N as (u & _ & _ & _ & M & _ & _ & _ & _ & I).
    split; [exact M|]. apply I. simpl. by rewrite (requestBody_other _ G Hd). }
  split.
  - intros M. destruct (toWebRequest (Legacy nodeReq)) as [w|e] eqn:N.
    + destruct (B w eq_refl) as (E & G & _); [by rewrite M..|]. rewrite M in E. done.
    + by rewrite (toWebRequest_throws _ _ N).
  - intros m M G Hd U. destruct (toWebRequest (Legacy nodeReq)) as [w|e] eqn:N.
    + destruct (B w eq_refl) as (E & G' & Hd'); [rewrite M; congruence..|].
      rewrite M in E. unfold Request.normalize_method in E.
      destruct U as [U|U]; rewrite U in E; simpl in E; congruence.
    + by rewrite (toWebRequest_throws _ _ N).
Qed.

(** X7: the methods that the [Request] constructor forbids cannot be
    normalised: for a legacy request with method [CONNECT], [TRACE] or
    [TRACK], in any letter case, [toWebRequest] throws a [TypeError]. *)
Theorem toWebRequest_forbidden_method nodeReq m :
  IncomingMessage.method nodeReq = Some m ->
  Text.uppercase m ∈ ["CONNECT"; "TRACE"; "TRACK"] ->
  toWebRequest (Legacy nodeReq) = Throw TypeError.
Proof.
  intros M F. destruct (toWebRequest (Legacy nodeReq)) as [w|e] eqn:N.
  - simpl in N. apply Request_new_result in N as (u & _ & _ & _ & _ & T & _).
    simpl in T. rewrite M in T. destruct T as [_ T].
    unfold Request.forbidden_method in T. by rewrite bool_decide_eq_true_2 in T.
  - by rewrite (toWebRequest_throws _ _ N).
Qed.

(** X8: what the canonical request of a legacy request holds: the method
    with the standard methods put in upper case, the serialisation of the
    parsed completed URL (which has no credentials), headers whose lookup
    finds the values of the legacy entries as trimmed strings, the body
    chosen on line 20, not yet read; and it never has a body together with
    the method [GET] or [HEAD]. *)
Theorem toWebRequest_canonical nodeReq webReq :
  toWebRequest (Legacy nodeReq) = Return webReq ->
  exists m u,
    IncomingMessage.method nodeReq = Some m
    /\ Request.method webReq = Request.normalize_method m
    /\ URL.parse (fullUrl (IncomingMessage.url nodeReq)) = Some u
    /\ URL.includes_credentials u = false
    /\ Request.url webReq = URL.serialize u
    /\ (forall name,
          Headers.get (Request.headers webReq) name
          = Headers.get (canonical_headers (IncomingMessage.headers nodeReq)) name)
    /\ Request.body webReq = requestBody nodeReq
    /\ Request.bodyUsed webReq = false
    /\ (Request.body webReq <> None ->
        Request.method webReq <> "GET" /\ Request.method webReq <> "HEAD").
Proof.
  intros N. pose proof N as N'. simpl in N'.
  apply Request_new_result in N' as (u & P & C & U & M & _ & Hh & Bd & Bu & I).
  simpl in *.
  destruct (IncomingMessage.method nodeReq) as [m|] eqn:Em.
  - assert (Request.headers webReq = canonical_headers (IncomingMessage.headers nodeReq))
      as Eh.
    { rewrite Hh. unfold canonical_headers. rewrite <- list_fmap_compose.
      apply list_fmap_ext. by intros _ [k v] _. }
    exists m, u. repeat split; try done.
    + intros name. by rewrite Eh.
    + apply I. by rewrite <- Bd.
    + apply I. by rewrite <- Bd.
  - exfalso. destruct I as [G _]; [|done].
    unfold requestBody. rewrite Em. done.
Qed.

(** X9: normalising first changes nothing: on the canonical request that
    [toWebRequest] returns, [toWebRequest] is the identity, and
    [getParams], [getBody] and [bodyData] give what they give on the
    original request. *)
Theorem normalization_is_transparent req webReq options :
  toWebRequest req = Return webReq ->
  toWebRequest (Standard webReq) = Return webReq
  /\ getParams (Standard webReq) = getParams req
  /\ getBody (Standard webReq) options = getBody req options
  /\ bodyData (Standard webReq) options = bodyData req options.
Proof.
  intros N. split; [done|]. split; [|split].
  - by rewrite (getParams_after_normalization req webReq N),
               (getParams_after_normalization (Standard webReq) webReq eq_refl).
  - by rewrite (getBody_after_normalization req options webReq N),
               (getBody_after_normalization (Standard webReq) options webReq eq_refl).
  - unfold bodyData. by rewrite N.
Qed.

(** ** The body parser *)

(** X10: with [options.raw] set and a non-empty decoded text, [getBody]
    resolves to [{ raw: text }] without calling [onError], whatever the
    content type says: no decoder is tried, so malformed JSON is returned
    as it is. *)
Theorem getBody_raw req options webReq ab decoder :
  toWebRequest req = Return webReq ->
  Request.arrayBuffer webReq = Return ab ->
  TextDecoder.new (or_else (encoding options) "utf-8") = Return decoder ->
  Text.is_empty (TextDecoder.decode decoder ab) = false ->
  raw options = Some true ->
  getBody req options
  = {| outcome := Return (raw_object (TextDecoder.decode decoder ab)); onError_calls := [] |}.
Proof.
  intros N A D NE R. apply (getBody_try_returns _ _ _ _ N).
  rewrite (getBody_try_decoded _ _ _ _ A D). simpl. by rewrite NE, R.
Qed.

(** X11: a legacy [GET] or [HEAD] request has an empty body object: once
    the normalisation has returned, [getBody] with the default encoding
    resolves to the empty object without calling [onError], whatever the
    legacy stream holds or does. *)
Theorem getBody_of_GET_or_HEAD nodeReq options webReq :
  IncomingMessage.method nodeReq = Some "GET" \/ IncomingMessage.method nodeReq = Some "HEAD" ->
  toWebRequest (Legacy nodeReq) = Return webReq ->
  encoding options = None ->
  getBody (Legacy nodeReq) options
  = {| outcome := Return empty_object; onError_calls := [] |}.
Proof.
  intros M N E. apply (getBody_try_returns _ _ _ _ N).
  pose proof N as N'. simpl in N'.
  apply Request_new_result in N' as (u & _ & _ & _ & _ & _ & _ & Bd & Bu & _).
  simpl in Bd.
  assert (requestBody nodeReq = None) as RB
    by (unfold requestBody; destruct M as [-> | ->]; reflexivity).
  unfold getBody_try, Request.arrayBuffer. rewrite Bu, Bd, RB, E. reflexivity.
Qed.

(** X12: a standard request whose body was read before gives the empty
    object: [arrayBuffer] rejects with a [TypeError], which is caught and
    handed to [onError]. *)
Theorem getBody_of_consumed_request r options :
  Request.bodyUsed r = true ->
  (forall handler, onError options = Some handler -> handler TypeError = Return tt) ->
  getBody (Standard r) options
  = {| outcome := Return empty_object;
       onError_calls := match onError options with
                        | Some _ => [TypeError]
                        | None => []
                        end |}.
Proof.
  intros U Hh. rewrite (getBody_after_normalization (Standard r) options r eq_refl).
  unfold getBody_try, Request.arrayBuffer. rewrite U. simpl.
  destruct (onError options) as [handler|] eqn:O; [|done].
  by rewrite (Hh handler eq_refl).
Qed.

Lemma TextDecoder_new_throws label e : TextDecoder.new label = Throw e -> e = RangeError.
Proof.
  unfold TextDecoder.new. case_bool_decide; [done|].
  destruct (legacy_encoding _); [done|]. by intros [= <-].
Qed.

Lemma JSON_parse_throws text e : JSON.parse text = Throw e -> e = SyntaxError.
Proof. unfold JSON.parse. destruct (_ ≫= _); [done|]. by intros [= <-]. Qed.

(** X13: the errors that [getBody] catches have three origins only:
    reading the body failed; the encoding label names no decoder (a
    [RangeError]); or the content type starts with [application/json] and
    the non-empty text is not JSON (a [SyntaxError]).  Form, text and raw
    bodies never fail to parse. *)
Theorem getBody_caught_errors webReq options err :
  getBody_try webReq options = Throw err ->
  Request.arrayBuffer webReq = Throw err
  \/ (exists ab,
        Request.arrayBuffer webReq = Return ab
        /\ TextDecoder.new (or_else (encoding options) "utf-8") = Throw err
        /\ err = RangeError)
  \/ (exists ab decoder,
        Request.arrayBuffer webReq = Return ab
        /\ TextDecoder.new (or_else (encoding options) "utf-8") = Return decoder
        /\ Text.is_empty (TextDecoder.decode decoder ab) = false
        /\ raw options <> Some true
        /\ Text.startsWith (effectiveContentType webReq options) "application/json" = true
        /\ JSON.parse (TextDecoder.decode decoder ab) = Throw err
        /\ err = SyntaxError).
Proof.
  unfold getBody_try.
  destruct (Request.arrayBuffer webReq) as [ab|e] eqn:A; simpl; [|intros [= <-]; by left].
  destruct (TextDecoder.new _) as [decoder|e] eqn:D; simpl.
  - intros T. right. right. exists ab, decoder.
    destruct (Text.is_empty _) eqn:NE; [done|].
    case_bool_decide as R; [done|].
    unfold dispatch in T.
    destruct (Text.startsWith _ "application/json") eqn:J.
    + repeat split; try done. by apply JSON_parse_throws in T.
    + by repeat destruct (Text.startsWith _ _).
  - intros [= <-]. right. left. exists ab. repeat split; try done.
    by apply TextDecoder_new_throws in D.
Qed.

(** X14: a form body becomes an object of strings in which every name of
    the form has the value of its last occurrence: for a non-empty text
    with [options.raw] unset and a content type that starts with
    [application/x-www-form-urlencoded], [getBody] resolves to an object
    whose property [k] is the last value given for [k]. *)
Theorem getBody_form_last_value req options webReq ab decoder :
  toWebRequest req = Return webReq ->
  Request.arrayBuffer webReq = Return ab ->
  TextDecoder.new (or_else (encoding options) "utf-8") = Return decoder ->
  Text.is_empty (TextDecoder.decode decoder ab) = false ->
  raw options <> Some true ->
  Text.startsWith (effectiveContentType webReq options) "application/x-www-form-urlencoded" = true ->
  exists properties,
    getBody req options
    = {| outcome := Return (JObject properties); onError_calls := [] |}
    /\ forall k, properties !! k
                 = JString <$> last_value k (URLSearchParams.new (TextDecoder.decode decoder ab)).
Proof.
  intros N A D NE R U.
  exists (JString <$> Object.fromEntries (URLSearchParams.new (TextDecoder.decode decoder ab))).
  split.
  - apply (getBody_try_returns _ _ _ _ N).
    rewrite (getBody_try_dispatches _ _ _ _ A D NE R).
    by rewrite (dispatch_urlencoded _ _ U).
  - intros k. by rewrite lookup_fmap, fromEntries_lookup.
Qed.

(** ** Absolute urls *)

Lemma parse_https_scheme r u :
  URL.parse ("https:" +:+ r) = Some u -> URL.scheme u = "https".
Proof.
  unfold URL.parse, URL.preprocess, Text.trim.
  change (Text.drop_while Text.is_c0_or_space ("https:" +:+ r)) with ("https:" +:+ r).
  change ("https:" +:+ r)
    with (String "h" (String "t" (String "t" (String "p" (String "s" (String ":" r)))))).
  rewrite !URLFacts.drop_while_end_cons by reflexivity.
  cbn [Text.filter Text.is_tab_or_newline]. simpl.
  destruct (Text.break (Ascii.eqb "#") _) as [a fragment_part]. simpl.
  destruct (Text.break (Ascii.eqb "?") _) as [b query_part]. simpl.
  destruct (URL.special_authority _ b) as [hier|]; [|done]. simpl.
  by intros [= <-].
Qed.

Lemma preprocess_unchanged c r :
  Shapes.visible c = true ->
  no_stripped_whitespace (String c r) ->
  URL.preprocess (String c r) = String c r.
Proof.
  intros V [F D]. unfold URL.preprocess, Text.trim.
  assert (Text.drop_while Text.is_c0_or_space (String c r) = String c r) as ->.
  { unfold Shapes.visible in V. apply negb_true_iff in V. simpl. by rewrite V. }
  by rewrite D, F.
Qed.

Lemma startsWith_append s p :
  Text.startsWith s p = true -> exists r, s = p +:+ r.
Proof.
  unfold Text.startsWith. revert s.
  induction p as [|a p IH]; intros s; [by exists s|].
  destruct s as [|c s]; [done|].
  change (String.prefix (String a p) (String c s))
    with (if ascii_dec a c then String.prefix p s else false).
  destruct (ascii_dec a c) as [->|]; [|done].
  intros E. destruct (IH s E) as [r ->]. by exists r.
Qed.

(** X15: a legacy url that starts with [http://] or [https://] is taken
    as it is, without the [localhost] prefix: when it holds no white space
    that the URL parser strips and the normalisation returns, the
    canonical URL is the serialisation of that url and [getParams] yields
    the pairs of its query component. *)
Theorem getParams_absolute_url nodeReq url webReq :
  IncomingMessage.url nodeReq = Some url ->
  Text.startsWith url "http://" = true \/ Text.startsWith url "https://" = true ->
  no_stripped_whitespace url ->
  toWebRequest (Legacy nodeReq) = Return webReq ->
  (exists u, URL.parse url = Some u /\ Request.url webReq = URL.serialize u)
  /\ getParams (Legacy nodeReq)
     = Return (Object.fromEntries (URLSearchParams.parse (query_component url))).
Proof.
  intros U S W N.
  assert (exists r, url = "http:" +:+ r \/ url = "https:" +:+ r) as [r E].
  { destruct S as [S|S]; apply startsWith_append in S as [r ->]; exists ("//" +:+ r);
      [by left|by right]. }
  assert (fullUrl (IncomingMessage.url nodeReq) = url) as F.
  { unfold fullUrl. rewrite U. by destruct E as [-> | ->]. }
  pose proof N as N'. simpl in N'.
  apply Request_new_returns in N' as (u & P & _ & _ & _).
  assert (is_Some (URL.default_port (URL.scheme u))) as Sp.
  { rewrite F in P. destruct E as [-> | ->].
    - rewrite (URLFacts.parse_http_scheme r u P). by eexists.
    - rewrite (parse_https_scheme r u P). by eexists. }
  destruct (getParams_legacy _ _ _ N P Sp) as [Eu G].
  split; [exists u; by rewrite <- F|].
  rewrite G, F.
  assert (URL.preprocess url = url) as ->; [|done].
  destruct E as [-> | ->]; by apply preprocess_unchanged.
Qed.

(** ** The facade, again *)

(** X16: for a legacy request whose url is completed with
    [http://localhost] and an [onError] handler that returns, [bodyData]
    can fail in the normalisation only: it rejects with a [TypeError] when
    [toWebRequest] throws, and resolves to parameters and a body when
    [toWebRequest] returns. *)
Theorem bodyData_fails_in_normalization_only nodeReq options :
  completed_url (IncomingMessage.url nodeReq) ->
  (forall handler err, onError options = Some handler -> handler err = Return tt) ->
  match toWebRequest (Legacy nodeReq) with
  | Throw _ =>
      bodyData (Legacy nodeReq) options
      = {| outcome := Throw TypeError; onError_calls := [] |}
  | Return _ =>
      exists params body,
        outcome (bodyData (Legacy nodeReq) options) = Return (params, body)
        /\ getParams (Legacy nodeReq) = Return params
        /\ outcome (getBody (Legacy nodeReq) options) = Return body
  end.
Proof.
  intros C Hh. destruct (toWebRequest (Legacy nodeReq)) as [w|e] eqn:N.
  - pose proof (getParams_completed _ _ C N) as G.
    assert (exists body, outcome (getBody (Legacy nodeReq) options) = Return body)
      as [body B].
    { rewrite (getBody_after_normalization _ options w N).
      destruct (getBody_try w options) as [v|err]; [by eexists|].
      destruct (onError options) as [handler|] eqn:O; [|by eexists].
      rewrite (Hh handler err eq_refl). by eexists. }
    assert (getParams (Standard w) = getParams (Legacy nodeReq)) as Ep.
    { by rewrite (getParams_after_normalization _ w N),
                 (getParams_after_normalization (Standard w) w eq_refl). }
    assert (getBody (Standard w) options = getBody (Legacy nodeReq) options) as Eb.
    { by rewrite (getBody_after_normalization _ options w N),
                 (getBody_after_normalization (Standard w) options w eq_refl). }
    eexists _, body. split; [|split; [exact G|exact B]].
    unfold bodyData. rewrite N, Ep, G, Eb. simpl. by rewrite B.
  - unfold bodyData. rewrite N. by rewrite (toWebRequest_throws _ _ N).
Qed.

End Further.

(** * The further properties at concrete requests *)

Section FurtherExamples.
#[local] Existing Instance plain_platform.

Lemma bodyData_keeps_params_witness :
  bodyData malformed_json observe
  = {| outcome := Return (∅, empty_object); onError_calls := [SyntaxError] |}.
Proof.
  refine (bodyData_keeps_params malformed_json observe _ ∅ SyntaxError
            eq_refl eq_refl eq_refl _).
  intros handler [= <-]. reflexivity.
Defined.

Lemma getParams_fails_with_normalization_witness :
  exists params,
    getParams (Legacy (node "GET" "/x?a=1" [] EmptyString)) = Return params.
Proof.
  exact (proj2 (getParams_fails_with_normalization
                  (node "GET" "/x?a=1" [] EmptyString) eq_refl) _ eq_refl).
Defined.

Lemma getParams_without_query_witness :
  getParams (Legacy (node "GET" "/health#top" [] EmptyString)) = Return ∅.
Proof.
  exact (getParams_without_query (node "GET" "/health#top" [] EmptyString)
           "/health#top" _ eq_refl eq_refl eq_refl eq_refl).
Defined.

Lemma toWebRequest_method_variants_witness :
  toWebRequest (Legacy response_message) = Throw TypeError
  /\ toWebRequest (Legacy (node "get" "/" [] EmptyString)) = Throw TypeError.
Proof.
  split.
  - exact (proj1 (toWebRequest_method_variants response_message) eq_refl).
  - refine (proj2 (toWebRequest_method_variants (node "get" "/" [] EmptyString))
              "get" eq_refl _ _ (or_introl eq_refl)); discriminate.
Defined.

Lemma toWebRequest_forbidden_method_witness :
  toWebRequest (Legacy (node "TRACE" "/" [] EmptyString)) = Throw TypeError.
Proof.
  refine (toWebRequest_forbidden_method (node "TRACE" "/" [] EmptyString) "TRACE" eq_refl _).
  apply list_elem_of_further, list_elem_of_here.
Defined.

Lemma toWebRequest_canonical_witness :
  exists m u,
    Request.normalize_method m = "POST"
    /\ URL.parse "http://localhost/a?b=1" = Some u
    /\ URL.serialize u = "http://localhost/a?b=1".
Proof.
  destruct (toWebRequest_canonical
              (node "post" "/a?b=1" [("Content-Type", " text/plain ")] "x") _ eq_refl)
    as (m & u & M & _ & P & _ & S & _).
  exists m, u. injection M as <-. split; [reflexivity|]. split; [exact P|].
  symmetry. exact S.
Defined.

Lemma normalization_is_transparent_witness :
  toWebRequest (Legacy (node "POST" "/" [("content-type", "text/plain")] "hi"))
  = Return plain_text_request
  /\ getParams (Standard plain_text_request)
     = getParams (Legacy (node "POST" "/" [("content-type", "text/plain")] "hi"))
  /\ getBody (Standard plain_text_request) no_options
     = getBody (Legacy (node "POST" "/" [("content-type", "text/plain")] "hi")) no_options
  /\ bodyData (Standard plain_text_request) no_options
     = bodyData (Legacy (node "POST" "/" [("content-type", "text/plain")] "hi")) no_options.
Proof.
  split; [reflexivity|].
  exact (proj2 (normalization_is_transparent
                  (Legacy (node "POST" "/" [("content-type", "text/plain")] "hi"))
                  plain_text_request no_options eq_refl)).
Defined.

Lemma getParams_ignores_stream_content_witness :
  getParams (Legacy (with_stream (node "POST" "/x?a=1" [] "one") (Throw (UserError "aborted"))))
  = getParams (Legacy (node "POST" "/x?a=1" [] "one"))
  /\ getParams (Legacy consumed_message) = Throw TypeError.
Proof.
  split.
  - exact (proj1 (getParams_ignores_stream_content (node "POST" "/x?a=1" [] "one")) _).
  - refine (proj2 (getParams_ignores_stream_content consumed_message) eq_refl _ _);
      discriminate.
Defined.

Lemma getBody_raw_witness :
  getBody malformed_json raw_only
  = {| outcome := Return (raw_object "{a:"); onError_calls := [] |}.
Proof.
  exact (getBody_raw malformed_json raw_only _ _ TextDecoder.UTF8
           eq_refl eq_refl eq_refl eq_refl eq_refl).
Defined.

Lemma getBody_of_GET_or_HEAD_witness :
  getBody (Legacy (node "GET" "/" json_header "{a:")) observe
  = {| outcome := Return empty_object; onError_calls := [] |}.
Proof.
  exact (getBody_of_GET_or_HEAD (node "GET" "/" json_header "{a:") observe _
           (or_introl eq_refl) eq_refl eq_refl).
Defined.

Lemma getBody_of_consumed_request_witness :
  getBody (Standard consumed_request) observe
  = {| outcome := Return empty_object; onError_calls := [TypeError] |}.
Proof.
  refine (getBody_of_consumed_request consumed_request observe eq_refl _).
  intros handler [= <-]. reflexivity.
Defined.

Lemma getBody_caught_errors_witness :
  JSON.parse "{a:" = Throw SyntaxError.
Proof.
  destruct (getBody_caught_errors
              {| Request.method := "POST"; Request.url := "http://localhost/";
                 Request.headers := json_header;
                 Request.body := Some (Return (list_byte_of_string "{a:"));
                 Request.bodyUsed := false |}
              no_options SyntaxError eq_refl)
    as [A|[(ab & A & D & _)|(ab & decoder & A & D & _ & _ & _ & P & _)]].
  - discriminate A.
  - discriminate D.
  - injection A as <-. injection D as <-. exact P.
Defined.

Lemma getBody_form_last_value_witness :
  exists properties,
    getBody (Legacy (node "POST" "/" form_header "a=1&b=two&a=3")) no_options
    = {| outcome := Return (JObject properties); onError_calls := [] |}
    /\ properties !! "a" = Some (JString "3").
Proof.
  destruct (getBody_form_last_value
              (Legacy (node "POST" "/" form_header "a=1&b=two&a=3")) no_options
              _ _ TextDecoder.UTF8 eq_refl eq_refl eq_refl eq_refl
              (fun E => ltac:(discriminate E)) eq_refl)
    as (properties & G & L).
  exists properties. split; [exact G|]. exact (L "a").
Defined.

Lemma bodyData_fails_in_normalization_only_witness :
  bodyData (Legacy (node "GET" ":x?a=1" [] EmptyString)) observe
  = {| outcome := Throw TypeError; onError_calls := [] |}.
Proof.
  refine (bodyData_fails_in_normalization_only
            (node "GET" ":x?a=1" [] EmptyString) observe eq_refl _).
  intros handler err [= <-]. reflexivity.
Defined.

Lemma getParams_absolute_url_witness :
  getParams (Legacy (node "GET" "https://example/search?q=1#top" [] EmptyString))
  = Return (Object.fromEntries (URLSearchParams.parse "q=1")).
Proof.
  exact (proj2 (getParams_absolute_url
                  (node "GET" "https://example/search?q=1#top" [] EmptyString)
                  "https://example/search?q=1#top" _ eq_refl (or_intror eq_refl)
                  (conj eq_refl eq_refl) eq_refl)).
Defined.

End FurtherExamples.
